(** * Delegate-hierarchy type-declaration transformation (enhancer generator)

    A shallow embedding of [EnhancerGenerator]
    (packages/schema/src/plugins/enhancer/enhance/index.ts) and the
    properties of its transformation pass.

    Strings are sequences of code units restricted to one byte each; the
    declaration tree the generator reads through ts-morph is given as data
    (a declaration's name, its type text and the property-signature nodes
    the parser reports for it, each with its name and its text). *)

From Stdlib Require Import String Ascii List Bool Arith Lia.
Import ListNotations.
Open Scope string_scope.
Open Scope nat_scope.
Set Warnings "-register-all".

(** ** Strings as the generator uses them *)

Module Str.

(** [s.startsWith(p)] *)
Fixpoint startsWith (p s : string) : bool :=
  match p, s with
  | EmptyString, _ => true
  | String a p', String b s' => if Ascii.eqb a b then startsWith p' s' else false
  | String _ _, EmptyString => false
  end.

(** The part of [s] after the prefix [p], when [s] starts with [p]. *)
Fixpoint stripPrefix (p s : string) : option string :=
  match p, s with
  | EmptyString, _ => Some s
  | String a p', String b s' => if Ascii.eqb a b then stripPrefix p' s' else None
  | String _ _, EmptyString => None
  end.

(** [s.replace(p, '')] with a string pattern: the first occurrence of [p]
    (the leftmost one) is cut out; without an occurrence [s] is returned.
    The replacement is the empty string, which has no [$] patterns. *)
Fixpoint replaceFirst (p s : string) : string :=
  match stripPrefix p s with
  | Some rest => rest
  | None =>
      match s with
      | EmptyString => EmptyString
      | String c s' => String c (replaceFirst p s')
      end
  end.

(** [s.includes(p)] *)
Fixpoint occursIn (p s : string) : bool :=
  startsWith p s ||
  match s with
  | EmptyString => false
  | String _ s' => occursIn p s'
  end.

(** [xs.join(sep)] *)
Fixpoint join (sep : string) (xs : list string) : string :=
  match xs with
  | [] => EmptyString
  | [x] => x
  | x :: rest => x ++ sep ++ join sep rest
  end.

(** [xs.includes(x)] on an array of strings *)
Definition includes (xs : list string) (x : string) : bool :=
  existsb (String.eqb x) xs.

(** [s.split(sep)] for a one-character separator. *)
Fixpoint splitOn (sep : ascii) (s : string) : list string :=
  match s with
  | EmptyString => [EmptyString]
  | String c s' =>
      if Ascii.eqb c sep then EmptyString :: splitOn sep s'
      else match splitOn sep s' with
           | [] => [String c EmptyString]
           | w :: ws => String c w :: ws
           end
  end.

Definition isLower (c : ascii) : bool :=
  let n := nat_of_ascii c in (97 <=? n) && (n <=? 122).

(** [upperCaseFirst] of the upper-case-first package, on one-byte letters. *)
Definition upperCaseFirst (s : string) : string :=
  match s with
  | EmptyString => EmptyString
  | String c s' =>
      String (if isLower c then ascii_of_nat (nat_of_ascii c - 32) else c) s'
  end.

Definition nl : string := String (ascii_of_nat 10) EmptyString.

End Str.

(** ** Regular expressions

    The fragment of ECMAScript patterns (no flags) that the generator's
    three patterns are written in: alternation, capturing groups, the greedy
    quantifiers [?], [*], [+], the dot, and backslash escapes.  A pattern
    outside the fragment compiles to [None]. *)

Module Regex.

Inductive cls := Digit | Word | Space.

Inductive regex :=
| REmpty
| RChar (c : ascii)
| RDot
| RClass (negated : bool) (k : cls)
| RWordBoundary (negated : bool)
| RSeq (r1 r2 : regex)
| RAlt (r1 r2 : regex)
| RStar (r : regex)
| ROpt (r : regex)
| RGroup (n : nat) (r : regex).

Definition isDigit (c : ascii) : bool :=
  let n := nat_of_ascii c in (48 <=? n) && (n <=? 57).

Definition isWordChar (c : ascii) : bool :=
  let n := nat_of_ascii c in
  ((97 <=? n) && (n <=? 122)) || ((65 <=? n) && (n <=? 90))
  || ((48 <=? n) && (n <=? 57)) || (n =? 95).

Definition isSpace (c : ascii) : bool :=
  let n := nat_of_ascii c in
  ((9 <=? n) && (n <=? 13)) || (n =? 32) || (n =? 160).

Definition isLineTerminator (c : ascii) : bool :=
  let n := nat_of_ascii c in (n =? 10) || (n =? 13).

Definition inClass (k : cls) (c : ascii) : bool :=
  match k with
  | Digit => isDigit c
  | Word => isWordChar c
  | Space => isSpace c
  end.

Definition isHex (c : ascii) : bool :=
  let n := nat_of_ascii c in
  isDigit c || ((97 <=? n) && (n <=? 102)) || ((65 <=? n) && (n <=? 70)).

Definition hexVal (c : ascii) : nat :=
  let n := nat_of_ascii c in
  if isDigit c then n - 48 else if 97 <=? n then n - 87 else n - 55.

Definition isLetter (c : ascii) : bool :=
  let n := nat_of_ascii c in
  ((97 <=? n) && (n <=? 122)) || ((65 <=? n) && (n <=? 90)).

(** *** Compiling a pattern string *)

(** The atom written [\c rest]; returns the atom and what is left of the
    pattern. *)
Definition parseEscape (c : ascii) (rest : string) : option (regex * string) :=
  match c with
  | "d"%char => Some (RClass false Digit, rest)
  | "D"%char => Some (RClass true Digit, rest)
  | "w"%char => Some (RClass false Word, rest)
  | "W"%char => Some (RClass true Word, rest)
  | "s"%char => Some (RClass false Space, rest)
  | "S"%char => Some (RClass true Space, rest)
  | "b"%char => Some (RWordBoundary false, rest)
  | "B"%char => Some (RWordBoundary true, rest)
  | "t"%char => Some (RChar (ascii_of_nat 9), rest)
  | "n"%char => Some (RChar (ascii_of_nat 10), rest)
  | "v"%char => Some (RChar (ascii_of_nat 11), rest)
  | "f"%char => Some (RChar (ascii_of_nat 12), rest)
  | "r"%char => Some (RChar (ascii_of_nat 13), rest)
  | "c"%char =>
      match rest with
      | String l rest' =>
          if isLetter l then Some (RChar (ascii_of_nat (nat_of_ascii l mod 32)), rest')
          else Some (RChar "\"%char, String "c"%char rest)
      | EmptyString => Some (RChar "\"%char, String "c"%char rest)
      end
  | "x"%char =>
      match rest with
      | String h1 (String h2 rest') =>
          if isHex h1 && isHex h2
          then Some (RChar (ascii_of_nat (16 * hexVal h1 + hexVal h2)), rest')
          else Some (RChar "x"%char, rest)
      | _ => Some (RChar "x"%char, rest)
      end
  | "u"%char =>
      match rest with
      | String h1 (String h2 (String h3 (String h4 rest'))) =>
          if isHex h1 && isHex h2 && isHex h3 && isHex h4
          then if (hexVal h1 =? 0) && (hexVal h2 =? 0)
               then Some (RChar (ascii_of_nat (16 * hexVal h3 + hexVal h4)), rest')
               else None
          else Some (RChar "u"%char, rest)
      | _ => Some (RChar "u"%char, rest)
      end
  | _ => if isDigit c then None else Some (RChar c, rest)
  end.

(** Postfix quantifiers after an atom; a quantifier followed by another
    quantifier character (lazy or malformed) is outside the fragment. *)
Definition quantifierChar (c : ascii) : bool :=
  match c with
  | "?"%char | "*"%char | "+"%char | "{"%char => true
  | _ => false
  end.

Definition parseQuantTail (r : regex) (s : string) : option (regex * string) :=
  match s with
  | String c _ => if quantifierChar c then None else Some (r, s)
  | EmptyString => Some (r, s)
  end.

Definition parseQuant (r : regex) (s : string) : option (regex * string) :=
  match s with
  | String "?"%char s' => parseQuantTail (ROpt r) s'
  | String "*"%char s' => parseQuantTail (RStar r) s'
  | String "+"%char s' => parseQuantTail (RSeq r (RStar r)) s'
  | String "{"%char _ => None
  | _ => Some (r, s)
  end.

(** Disjunction, alternative and atom; [g] is the number of the next
    capturing group, counted by opening parenthesis. *)
Fixpoint parseAlt (fuel : nat) (s : string) (g : nat) : option (regex * string * nat) :=
  match fuel with
  | 0 => None
  | S f =>
      match parseSeq f s g with
      | Some (r1, String "|"%char s', g1) =>
          match parseAlt f s' g1 with
          | Some (r2, s'', g2) => Some (RAlt r1 r2, s'', g2)
          | None => None
          end
      | other => other
      end
  end
with parseSeq (fuel : nat) (s : string) (g : nat) : option (regex * string * nat) :=
  match fuel with
  | 0 => None
  | S f =>
      match s with
      | EmptyString => Some (REmpty, s, g)
      | String "|"%char _ => Some (REmpty, s, g)
      | String ")"%char _ => Some (REmpty, s, g)
      | _ =>
          match parseAtom f s g with
          | Some (a, s1, g1) =>
              match parseQuant a s1 with
              | Some (q, s2) =>
                  match parseSeq f s2 g1 with
                  | Some (REmpty, s3, g3) => Some (q, s3, g3)
                  | Some (r, s3, g3) => Some (RSeq q r, s3, g3)
                  | None => None
                  end
              | None => None
              end
          | None => None
          end
      end
  end
with parseAtom (fuel : nat) (s : string) (g : nat) : option (regex * string * nat) :=
  match fuel with
  | 0 => None
  | S f =>
      match s with
      | EmptyString => None
      | String "("%char (String "?"%char _) => None
      | String "("%char s' =>
          match parseAlt f s' (S g) with
          | Some (r, String ")"%char s'', g') => Some (RGroup g r, s'', g')
          | _ => None
          end
      | String "\"%char (String c s') =>
          match parseEscape c s' with
          | Some (a, rest) => Some (a, rest, g)
          | None => None
          end
      | String "\"%char EmptyString => None
      | String "."%char s' => Some (RDot, s', g)
      | String "["%char _ => None
      | String "^"%char _ => None
      | String "$"%char _ => None
      | String "*"%char _ => None
      | String "+"%char _ => None
      | String "?"%char _ => None
      | String "{"%char _ => None
      | String c s' => Some (RChar c, s', g)
      end
  end.

(** [new RegExp(pattern)] *)
Definition compile (pattern : string) : option regex :=
  match parseAlt (3 * String.length pattern + 3) pattern 1 with
  | Some (r, EmptyString, _) => Some r
  | _ => None
  end.

(** *** Matching: a backtracking matcher in continuation style *)

(** The text before the current position (reversed), the text after it,
    and the captures made so far. *)
Record mstate := MState {
  before : list ascii;
  after : list ascii;
  captures : list (nat * string)
}.

Definition atWordBoundary (s : mstate) : bool :=
  let a := match before s with c :: _ => isWordChar c | [] => false end in
  let b := match after s with c :: _ => isWordChar c | [] => false end in
  negb (Bool.eqb a b).

Definition consume (p : ascii -> bool) (k : mstate -> option mstate) (s : mstate)
  : option mstate :=
  match after s with
  | c :: rest => if p c then k (MState (c :: before s) rest (captures s)) else None
  | [] => None
  end.

Definition capture (n : nat) (start : mstate) (s : mstate) : mstate :=
  let len := List.length (before s) - List.length (before start) in
  MState (before s) (after s)
         ((n, string_of_list_ascii (rev (firstn len (before s)))) :: captures s).

Fixpoint run (r : regex) (k : mstate -> option mstate) (s : mstate) {struct r}
  : option mstate :=
  match r with
  | REmpty => k s
  | RChar c => consume (Ascii.eqb c) k s
  | RDot => consume (fun x => negb (isLineTerminator x)) k s
  | RClass neg cl => consume (fun x => xorb neg (inClass cl x)) k s
  | RWordBoundary neg => if xorb neg (atWordBoundary s) then k s else None
  | RSeq r1 r2 => run r1 (run r2 k) s
  | RAlt r1 r2 =>
      match run r1 k s with
      | Some m => Some m
      | None => run r2 k s
      end
  | ROpt r1 =>
      match run r1 k s with
      | Some m => Some m
      | None => k s
      end
  | RStar r1 =>
      (fix loop (n : nat) (s0 : mstate) : option mstate :=
         match n with
         | 0 => k s0
         | S n' =>
             match run r1 (fun s1 =>
                             if List.length (after s1) <? List.length (after s0)
                             then loop n' s1 else None) s0 with
             | Some m => Some m
             | None => k s0
             end
         end) (List.length (after s)) s
  | RGroup n r1 => run r1 (fun s1 => k (capture n s s1)) s
  end.

(** The leftmost match: start positions are tried from left to right. *)
Fixpoint search (r : regex) (s : mstate) (n : nat) : option mstate :=
  match run r (fun m => Some m) s with
  | Some m => Some m
  | None =>
      match n, after s with
      | S n', c :: rest => search r (MState (c :: before s) rest []) n'
      | _, _ => None
      end
  end.

(** [regex.exec(text)] / [text.match(regex)] for a pattern without flags:
    the captures of the leftmost match. *)
Definition exec (r : regex) (text : string) : option (list (nat * string)) :=
  let cs := list_ascii_of_string text in
  match search r (MState [] cs []) (List.length cs) with
  | Some m => Some (captures m)
  | None => None
  end.

(** [regex.test(text)] *)
Definition test (r : regex) (text : string) : bool :=
  match exec r text with Some _ => true | None => false end.

(** [match[n]]: the last capture made by group [n]. *)
Fixpoint group (n : nat) (caps : list (nat * string)) : option string :=
  match caps with
  | [] => None
  | (m, v) :: rest => if m =? n then Some v else group n rest
  end.

End Regex.

(** ** The schema graph (ZModel AST, as far as the generator reads it) *)

Module Schema.

(** An expression in attribute-argument position.  A reference carries its
    source text ([target.$refText]) and, when the linker resolved it, the
    field it points to ([target.ref]), kept by its name: the name is all the
    generator reads of a resolved field. *)
Inductive Expression :=
| ReferenceExpr (refText : string) (ref : option string)
| ArrayExpr (items : list Expression)
| InvocationExpr (function : string)
| LiteralExpr (text : string).

Record AttributeArg := {
  resolvedParam : option string;      (* arg.$resolvedParam?.name *)
  value : Expression
}.

Record Attribute := {
  decl : string;                      (* attr.decl.$refText *)
  args : list AttributeArg
}.

Record DataModelField := {
  fieldName : string;
  fieldAttributes : list Attribute
}.

(** A supertype reference resolves to a declaration of the model, which is
    identified by its position in [declarations] (object identity in the
    source); an unresolved reference has no [ref]. *)
Record DataModel := {
  name : string;
  fields : list DataModelField;
  attributes : list Attribute;
  superTypes : list (option nat)
}.

Inductive Declaration :=
| DataModelDecl (dm : DataModel)
| OtherDecl (declName : string).

Record Model := { declarations : list Declaration }.

Definition isDataModel (d : Declaration) : bool :=
  match d with DataModelDecl _ => true | OtherDecl _ => false end.

(** Modelled from the spec: [getAttribute] of the sdk package is not among
    the sources; it finds the attribute of a declaration by the name of its
    declaration (the delegate marker [@@delegate], the [@relation]
    attribute of a field). *)
Definition getAttribute (attrs : list Attribute) (attrName : string) : option Attribute :=
  find (fun a => String.eqb (decl a) attrName) attrs.

(** Modelled from the spec: [getAttributeArg] of the sdk package is not among
    the sources; it returns the value of the argument bound to the named
    parameter (the [fields] list of a [@relation] attribute). *)
Definition getAttributeArg (attr : Attribute) (param : string) : option Expression :=
  match find (fun a => match resolvedParam a with
                       | Some n => String.eqb n param
                       | None => false
                       end) (args attr) with
  | Some a => Some (value a)
  | None => None
  end.

(** Modelled from the spec: [isDelegateModel] of the sdk package is not among
    the sources; an entity is delegate-marked when it is a data model that
    carries the delegate marker. *)
Definition isDelegateModel (d : Declaration) : bool :=
  match d with
  | DataModelDecl dm =>
      match getAttribute (attributes dm) "@@delegate" with
      | Some _ => true
      | None => false
      end
  | OtherDecl _ => false
  end.

(** [this.model.declarations[i]] through a resolved reference. *)
Definition deref (m : Model) (i : nat) : option Declaration :=
  nth_error (declarations m) i.

(** [d.superTypes.some((s) => s.ref === base)], [base] being the declaration
    at position [i]. *)
Definition extends (dm : DataModel) (i : nat) : bool :=
  existsb (fun s => match s with Some j => j =? i | None => false end) (superTypes dm).

(** The declarations with their positions. *)
Definition indexed (m : Model) : list (nat * Declaration) :=
  combine (seq 0 (List.length (declarations m))) (declarations m).

End Schema.

(** ** The declaration tree (ts-morph nodes and structures) *)

Module Tree.

(** A [PropertySignature] node: [getName()] and [getText()]. *)
Record PropertySignature := {
  psName : string;
  psText : string
}.

(** A type alias node: its name, the text of its type ([getStructure().type])
    and its descendants of kind [PropertySignature] in document order. *)
Record TypeAliasDeclaration := {
  taName : string;
  taType : string;
  taProps : list PropertySignature
}.

Record TypeAliasStructure := {
  tasName : string;
  tasType : string
}.

(** A property or method structure of an interface: its name and the rest
    of the member (type, parameters, modifiers) as text. *)
Record MemberStructure := {
  memberName : string;
  memberRest : string
}.

(** An interface; node and structure carry the same data. *)
Record InterfaceDeclaration := {
  ifName : string;
  ifProperties : list MemberStructure;
  ifMethods : list MemberStructure
}.

Record VariableDeclarationStructure := {
  vdName : string;
  vdType : option string
}.

(** A variable statement node: the structures of its declarations and its
    descendants of kind [PropertySignature]. *)
Record VariableStatement := {
  vsDeclarations : list VariableDeclarationStructure;
  vsProps : list PropertySignature
}.

(** The declarations directly inside a namespace, by category; [mbOthers]
    are the statements of the categories the generator does not read
    (enums, export declarations). *)
Record ModuleBlock := {
  mbImportEquals : list string;
  mbClasses : list string;
  mbFunctions : list string;
  mbModules : list string;
  mbVariables : list VariableStatement;
  mbInterfaces : list InterfaceDeclaration;
  mbTypeAliases : list TypeAliasDeclaration;
  mbOthers : list string
}.

Record ModuleDeclaration := {
  modName : string;
  modBlock : ModuleBlock
}.

(** A source file by category; [sfOthers] as for a namespace (top-level
    interfaces, functions, enums). *)
Record SourceFile := {
  sfImports : list string;
  sfImportEquals : list string;
  sfExportAssignments : list string;
  sfTypeAliases : list TypeAliasDeclaration;
  sfClasses : list string;
  sfVariables : list VariableStatement;
  sfModules : list ModuleDeclaration;
  sfOthers : list string
}.

(** The structures a written file consists of. *)
Record VariableStatementStructure := {
  vssDeclarations : list VariableDeclarationStructure
}.

Record ModuleStructure := {
  msName : string;
  msImportEquals : list string;
  msClasses : list string;
  msFunctions : list string;
  msModules : list string;
  msVariables : list VariableStatementStructure;
  msInterfaces : list InterfaceDeclaration;
  msTypeAliases : list TypeAliasStructure;
  msOthers : list string
}.

Record SourceFileStructure := {
  outImports : list string;
  outImportEquals : list string;
  outExportAssignments : list string;
  outTypeAliases : list TypeAliasStructure;
  outClasses : list string;
  outVariables : list VariableStatementStructure;
  outModules : list ModuleStructure;
  outOthers : list string
}.

(** [n.getStructure()] *)
Definition typeAliasStructure (t : TypeAliasDeclaration) : TypeAliasStructure :=
  {| tasName := taName t; tasType := taType t |}.

Definition variableStructure (v : VariableStatement) : VariableStatementStructure :=
  {| vssDeclarations := vsDeclarations v |}.

Definition moduleStructure (m : ModuleDeclaration) : ModuleStructure :=
  let b := modBlock m in
  {| msName := modName m;
     msImportEquals := mbImportEquals b;
     msClasses := mbClasses b;
     msFunctions := mbFunctions b;
     msModules := mbModules b;
     msVariables := map variableStructure (mbVariables b);
     msInterfaces := mbInterfaces b;
     msTypeAliases := map typeAliasStructure (mbTypeAliases b);
     msOthers := mbOthers b |}.

(** The whole file as it stands ([sf.getFullText()], up to layout). *)
Definition fullText (sf : SourceFile) : SourceFileStructure :=
  {| outImports := sfImports sf;
     outImportEquals := sfImportEquals sf;
     outExportAssignments := sfExportAssignments sf;
     outTypeAliases := map typeAliasStructure (sfTypeAliases sf);
     outClasses := sfClasses sf;
     outVariables := map variableStructure (sfVariables sf);
     outModules := map moduleStructure (sfModules sf);
     outOthers := sfOthers sf |}.

End Tree.

(** ** The generator *)

Module Enhancer.
Import Str Regex Schema Tree.

(** How a call ends: it returns, it throws, the evaluation ran out of fuel
    (the call does not return within the given recursion depth), or it built
    a pattern outside the modelled fragment of regular expressions. *)
Inductive outcome (A : Type) :=
| Returns (a : A)
| Throws (what : string)
| OutOfFuel
| OutOfFragment.
Arguments Returns {A} a.
Arguments Throws {A} what.
Arguments OutOfFuel {A}.
Arguments OutOfFragment {A}.

Definition bind {A B : Type} (x : outcome A) (f : A -> outcome B) : outcome B :=
  match x with
  | Returns a => f a
  | Throws w => Throws w
  | OutOfFuel => OutOfFuel
  | OutOfFragment => OutOfFragment
  end.

Notation "x <- e1 ;; e2" := (bind e1 (fun x => e2))
  (at level 61, e1 at next level, right associativity).

Fixpoint mapM {A B : Type} (f : A -> outcome B) (xs : list A) : outcome (list B) :=
  match xs with
  | [] => Returns []
  | x :: rest => y <- f x ;; ys <- mapM f rest ;; Returns (y :: ys)
  end.

(** The reserved prefix of the runtime package; the generator's own comments
    name the fields it marks [delegate_aux_*]. *)
Definition DELEGATE_AUX_RELATION_PREFIX : string := "delegate_aux".

(** information of delegate models and their sub models *)
Definition DelegateInfo : Type := list (DataModel * list DataModel).

Definition findNamedProperty (typeAlias : TypeAliasDeclaration) (n : string)
  : option PropertySignature :=
  find (fun d => String.eqb (psName d) n) (taProps typeAlias).

Definition findAuxDecls (descendants : list PropertySignature) : list PropertySignature :=
  filter (fun n => startsWith DELEGATE_AUX_RELATION_PREFIX (psName n)) descendants.

(** The discriminator field of a delegate, kept by its name. *)
Definition getDiscriminatorField (delegate : DataModel) : option string :=
  match getAttribute (attributes delegate) "@@delegate" with
  | None => None
  | Some delegateAttr =>
      match args delegateAttr with
      | {| value := ReferenceExpr _ target |} :: _ => target
      | _ => None
      end
  end.

(** [result] is one array shared by all the calls: a call pushes onto it and
    returns it, and the caller then pushes the elements of the returned array
    (the very array it holds) onto it once more.  The function returns the
    contents of the shared array after the call. *)
Fixpoint getDiscriminatorFieldsRecursively (fuel : nat) (m : Model)
    (delegate : Declaration) (result : list string) : outcome (list string) :=
  match fuel with
  | 0 => OutOfFuel
  | S fuel' =>
      match delegate with
      | DataModelDecl dm =>
          if isDelegateModel delegate then
            let result1 :=
              match getDiscriminatorField dm with
              | Some discriminator => (result ++ [discriminator])%list
              | None => result
              end in
            fold_left
              (fun acc superType =>
                 cur <- acc ;;
                 match superType with
                 | Some i =>
                     match deref m i with
                     | Some base =>
                         r <- getDiscriminatorFieldsRecursively fuel' m base cur ;;
                         Returns (r ++ r)%list
                     | None => Returns cur
                     end
                 | None => Returns cur
                 end)
              (superTypes dm) (Returns result1)
          else Returns result
      | OtherDecl _ => Returns result
      end
  end.

(** [texts.forEach((t) => { source = source.replace(t, '') })] *)
Definition removeAll (texts : list string) (source : string) : string :=
  fold_left (fun src t => replaceFirst t src) texts source.

Definition removeAuxFieldsFromTypeAlias (typeAlias : TypeAliasDeclaration)
    (source : string) : string :=
  let auxDecls := findAuxDecls (taProps typeAlias) in
  if 0 <? List.length auxDecls
  then removeAll (map psText auxDecls) source
  else source.

Definition concreteCreateUpdateInputPattern (delegateInfo : DelegateInfo) : string :=
  let concreteModelNames := flat_map (fun e => map name (snd e)) delegateInfo in
  "(" ++ join "|" concreteModelNames ++ ")(Unchecked)?(Create|Update).*Input".

Definition removeDiscriminatorFromConcreteInput (fuel : nat) (m : Model)
    (typeAlias : TypeAliasDeclaration) (delegateInfo : DelegateInfo)
    (source : string) : outcome string :=
  match compile (concreteCreateUpdateInputPattern delegateInfo) with
  | None => OutOfFragment
  | Some concreteCreateUpdateInputRegex =>
      match exec concreteCreateUpdateInputRegex (taName typeAlias) with
      | None => Returns source
      | Some caps =>
          let modelName := group 1 caps in
          match find (fun e => existsb (fun c => match modelName with
                                                 | Some n => String.eqb (name c) n
                                                 | None => false
                                                 end) (snd e)) delegateInfo with
          | None => Returns source
          | Some record =>
              let delegateOfConcrete := fst record in
              discriminators <-
                getDiscriminatorFieldsRecursively fuel m (DataModelDecl delegateOfConcrete) [] ;;
              Returns
                (fold_left
                   (fun src discriminatorDecl =>
                      match findNamedProperty typeAlias discriminatorDecl with
                      | Some discriminatorNode => replaceFirst (psText discriminatorNode) src
                      | None => src
                      end)
                   discriminators source)
          end
      end
  end.

Definition delegateCreateUpdateInputPattern (delegateModels : DelegateInfo) : string :=
  let delegateModelNames := map (fun e => name (fst e)) delegateModels in
  "\" ++ join "|" delegateModelNames ++ "(Unchecked)?(Create|Update).*Input".

Definition removeCreateFromDelegateInput (typeAlias : TypeAliasDeclaration)
    (delegateModels : DelegateInfo) (source : string) : outcome string :=
  match compile (delegateCreateUpdateInputPattern delegateModels) with
  | None => OutOfFragment
  | Some delegateCreateUpdateInputRegex =>
      if test delegateCreateUpdateInputRegex (taName typeAlias) then
        let toRemove :=
          filter (fun p => includes ["create"; "connectOrCreate"; "upsert"] (psName p))
                 (taProps typeAlias) in
        Returns (removeAll (map psText toRemove) source)
      else Returns source
  end.

Definition nestedMutationInputPattern : string :=
  "(.+)(Create|Update)Without" ++ upperCaseFirst DELEGATE_AUX_RELATION_PREFIX
  ++ "_(.+)Input".

(** [fieldsArg.items.map((e) => (e as ReferenceExpr).target.$refText)]: an
    item that is not a reference has no [target]. *)
Fixpoint refTexts (items : list Expression) : outcome (list string) :=
  match items with
  | [] => Returns []
  | ReferenceExpr t _ :: rest => ts <- refTexts rest ;; Returns (t :: ts)
  | _ :: _ => Throws "TypeError"
  end.

Definition removeDelegateFieldsFromNestedMutationInput (m : Model)
    (typeAlias : TypeAliasDeclaration) (_delegateInfo : DelegateInfo)
    (source : string) : outcome string :=
  match compile nestedMutationInputPattern with
  | None => OutOfFragment
  | Some regex =>
      match exec regex (taName typeAlias) with
      | None => Returns source
      | Some caps =>
          (* [modelName]_[relationFieldName]_[concreteModelName] *)
          let nameTuple := match group 3 caps with Some t => t | None => EmptyString end in
          let pieces := splitOn "_"%char nameTuple in
          let modelName := nth_error pieces 0 in
          let relationFieldName := nth_error pieces 1 in
          let fieldDef :=
            match relationFieldName with
            | Some n => findNamedProperty typeAlias n
            | None => None
            end in
          (* remove relation field of delegate type, e.g., `asset` *)
          let source1 :=
            match fieldDef with
            | Some d => replaceFirst (psText d) source
            | None => source
            end in
          (* remove fk fields related to the delegate type relation, e.g., `assetId` *)
          let relationModel :=
            find (fun d => match d, modelName with
                           | DataModelDecl dm, Some n => String.eqb (name dm) n
                           | _, _ => false
                           end) (declarations m) in
          match relationModel with
          | Some (DataModelDecl rm) =>
              match find (fun f => match relationFieldName with
                                   | Some n => String.eqb (fieldName f) n
                                   | None => false
                                   end) (fields rm) with
              | None => Returns source1
              | Some relationField =>
                  match getAttribute (fieldAttributes relationField) "@relation" with
                  | None => Returns source1
                  | Some relAttr =>
                      fkFields <-
                        match getAttributeArg relAttr "fields" with
                        | Some (ArrayExpr items) => refTexts items
                        | _ => Returns []
                        end ;;
                      Returns
                        (fold_left
                           (fun src fkField =>
                              match findNamedProperty typeAlias fkField with
                              | Some d => replaceFirst (psText d) src
                              | None => src
                              end)
                           fkFields source1)
                  end
              end
          | _ => Returns source1
          end
      end
  end.

Definition payloadMember (discriminatorName : string) (concrete : DataModel) : string :=
  "($" ++ name concrete ++ "Payload<ExtArgs> & { scalars: { " ++ discriminatorName
  ++ ": '" ++ name concrete ++ "' } })".

Definition fixDelegatePayloadType (typeAlias : TypeAliasDeclaration)
    (delegateInfo : DelegateInfo) (source : string) : string :=
  (* change the type of `$<DelegateModel>Payload` type of delegate model to a
     union of concrete types *)
  let typeName := taName typeAlias in
  match find (fun e => String.eqb ("$" ++ name (fst e) ++ "Payload") typeName)
             delegateInfo with
  | Some payloadRecord =>
      match getDiscriminatorField (fst payloadRecord) with
      | Some discriminatorDecl =>
          join " | " (map (payloadMember discriminatorDecl) (snd payloadRecord))
      | None => source
      end
  | None => source
  end.

Definition transformTypeAlias (fuel : nat) (m : Model)
    (typeAlias : TypeAliasDeclaration) (delegateInfo : DelegateInfo)
  : outcome TypeAliasStructure :=
  let source := taType typeAlias in
  (* remove aux fields *)
  let source := removeAuxFieldsFromTypeAlias typeAlias source in
  (* remove discriminator field from concrete input types *)
  source <- removeDiscriminatorFromConcreteInput fuel m typeAlias delegateInfo source ;;
  (* remove create/connectOrCreate/upsert fields from delegate's input types *)
  source <- removeCreateFromDelegateInput typeAlias delegateInfo source ;;
  (* remove delegate fields from nested mutation input types *)
  source <- removeDelegateFieldsFromNestedMutationInput m typeAlias delegateInfo source ;;
  (* fix delegate payload union type *)
  let source := fixDelegatePayloadType typeAlias delegateInfo source in
  Returns {| tasName := taName typeAlias; tasType := source |}.

Definition isAux (s : MemberStructure) : bool :=
  startsWith DELEGATE_AUX_RELATION_PREFIX (memberName s).

Definition transformInterface (iface : InterfaceDeclaration) (delegateInfo : DelegateInfo)
  : InterfaceDeclaration :=
  (* filter out aux fields *)
  let properties := filter (fun p => negb (isAux p)) (ifProperties iface) in
  (* filter out aux methods *)
  let methods := filter (fun x => negb (isAux x)) (ifMethods iface) in
  let methods :=
    if existsb (fun e => String.eqb (name (fst e) ++ "Delegate") (ifName iface)) delegateInfo
    then (* delegate models cannot be created directly *)
      filter (fun x => negb (includes ["create"; "createMany"; "upsert"] (memberName x)))
             methods
    else methods in
  {| ifName := ifName iface; ifProperties := properties; ifMethods := methods |}.

Definition transformVariableStatement (variable : VariableStatement)
  : VariableStatementStructure :=
  (* remove `delegate_aux_*` fields from the variable's typing *)
  let auxFields := findAuxDecls (vsProps variable) in
  if 0 <? List.length auxFields then
    {| vssDeclarations :=
         map (fun v => {| vdName := vdName v;
                          vdType := match vdType v with
                                    | Some source => Some (removeAll (map psText auxFields) source)
                                    | None => None
                                    end |})
             (vsDeclarations variable) |}
  else variableStructure variable.

Definition transformPrismaModule (fuel : nat) (m : Model) (prismaModule : ModuleDeclaration)
    (delegateInfo : DelegateInfo) : outcome ModuleStructure :=
  let moduleBlock := modBlock prismaModule in
  let newVariables := map transformVariableStatement (mbVariables moduleBlock) in
  let newInterfaces := map (fun iface => transformInterface iface delegateInfo)
                           (mbInterfaces moduleBlock) in
  newTypeAliases <-
    mapM (fun typeAlias => transformTypeAlias fuel m typeAlias delegateInfo)
         (mbTypeAliases moduleBlock) ;;
  Returns {| msName := "Prisma";
             msImportEquals := mbImportEquals moduleBlock;
             msClasses := mbClasses moduleBlock;
             msFunctions := mbFunctions moduleBlock;
             msModules := mbModules moduleBlock;
             msVariables := newVariables;
             msInterfaces := newInterfaces;
             msTypeAliases := newTypeAliases;
             msOthers := [] |}.

Definition transformDelegate (fuel : nat) (m : Model) (sf : SourceFile)
    (delegateInfo : DelegateInfo) : outcome SourceFileStructure :=
  let others := filter (fun n => negb (String.eqb (modName n) "Prisma")) (sfModules sf) in
  match find (fun n => String.eqb (modName n) "Prisma") (sfModules sf) with
  | None => Throws "Prisma"
  | Some prismaModule =>
      newPrismaModule <- transformPrismaModule fuel m prismaModule delegateInfo ;;
      Returns {| outImports := sfImports sf;
                 outImportEquals := sfImportEquals sf;
                 outExportAssignments := sfExportAssignments sf;
                 outTypeAliases := map typeAliasStructure (sfTypeAliases sf);
                 outClasses := sfClasses sf;
                 outVariables := map variableStructure (sfVariables sf);
                 outModules := (map moduleStructure others ++ [newPrismaModule])%list;
                 outOthers := [] |}
  end.

(** [this.model.declarations.filter((d) => isDataModel(d) &&
    d.superTypes.some((s) => s.ref === dm))], [dm] being the declaration at
    position [i]. *)
Definition subModels (m : Model) (i : nat) : list DataModel :=
  flat_map (fun d => match d with
                     | DataModelDecl sub => if extends sub i then [sub] else []
                     | OtherDecl _ => []
                     end) (declarations m).

Definition delegateEntry (m : Model) (e : nat * Declaration)
  : list (DataModel * list DataModel) :=
  match snd e with
  | DataModelDecl dm =>
      if isDelegateModel (snd e) then [(dm, subModels m (fst e))] else []
  | OtherDecl _ => []
  end.

(** build a map of delegate models and their sub models *)
Definition buildDelegateInfo (m : Model) : DelegateInfo :=
  flat_map (delegateEntry m) (indexed m).

(** The contents of [index-fixed.d.ts]. *)
Definition processClientTypes (fuel : nat) (m : Model) (sf : SourceFile)
  : outcome SourceFileStructure :=
  let delegateInfo := buildDelegateInfo m in
  if 0 <? List.length delegateInfo then
    (* transform types for delegated models *)
    transformDelegate fuel m sf delegateInfo
  else
    (* just copy *)
    Returns (fullText sf).

(** *** The run: which client is needed, and the external generator *)

(** What a run does to the outside, in order. *)
Inductive Event :=
| LogicalSchemaGenerated                      (* prismaGenerator.generate: logical.prisma *)
| PrismaGenerate (verbose : bool)             (* execPackage(generateCmd, ...) *)
| SchemaErrorTracked                          (* trackPrismaSchemaError *)
| ClientTypesSaved (doc : SourceFileStructure) (* index-fixed.d.ts *)
| ReexportSaved (from : string)               (* models.d.ts *)
| EnhanceCreated (logical : bool).            (* enhance.ts *)

(** The outside of a run: whether the n-th invocation of the external
    generator succeeds, and the [index.d.ts] it leaves behind. *)
Record World := {
  execPackage : nat -> bool;
  clientTypes : SourceFile
}.

Definition logicalPrismaClientDir : string := "./.logical-prisma-client".

Section Generate.

(** [getDataModels] of the sdk package (the data models of the schema, each
    with its position among the declarations) and [isDefaultWithAuth] of
    enhancer-utils are not among the sources. *)
Variable getDataModels : Model -> list (nat * DataModel).
Variable isDefaultWithAuth : Attribute -> bool.

Definition hasDelegateModel (model : Model) : bool :=
  let dataModels := getDataModels model in
  existsb
    (fun dm =>
       isDelegateModel (DataModelDecl (snd dm))
       && existsb (fun sub => extends (snd sub) (fst dm)) dataModels)
    dataModels.

Definition hasAuthInDefault (model : Model) : bool :=
  existsb
    (fun dm => existsb (fun f => existsb isDefaultWithAuth (fieldAttributes f))
                       (fields (snd dm)))
    (getDataModels model).

Definition needsLogicalClient (model : Model) : bool :=
  hasDelegateModel model || hasAuthInDefault model.

Definition generateLogicalPrisma (fuel : nat) (model : Model) (w : World)
  : list Event * outcome unit :=
  let log := [LogicalSchemaGenerated; PrismaGenerate false] in
  if execPackage w 0 then
    (* make a bunch of typing fixes to the generated prisma client *)
    match processClientTypes fuel model (clientTypes w) with
    | Returns doc => ((log ++ [ClientTypesSaved doc])%list, Returns tt)
    | Throws e => (log, Throws e)
    | OutOfFuel => (log, OutOfFuel)
    | OutOfFragment => (log, OutOfFragment)
    end
  else
    (* run 'prisma generate' again with output to the console; whatever it
       does, the failure is reported *)
    ((log ++ [SchemaErrorTracked; PrismaGenerate true])%list,
     Throws "Failed to run prisma generate on logical schema")
.

(** [generate]: the result tells whether a logical client was generated
    ([dmmf] is defined). *)
Definition generate (fuel : nat) (model : Model) (w : World) (prismaImport : string)
  : list Event * outcome bool :=
  if needsLogicalClient model then
    (* schema contains delegate models, need to generate a logical prisma schema *)
    match generateLogicalPrisma fuel model w with
    | (log, Returns _) =>
        ((log ++ [ReexportSaved (logicalPrismaClientDir ++ "/index-fixed");
                  EnhanceCreated true])%list,
         Returns true)
    | (log, Throws e) => (log, Throws e)
    | (log, OutOfFuel) => (log, OutOfFuel)
    | (log, OutOfFragment) => (log, OutOfFragment)
    end
  else
    (* just reexport the prisma client *)
    ([ReexportSaved prismaImport; EnhanceCreated false], Returns false).

End Generate.

End Enhancer.

(** ** The data models a run looks at *)

Module Sdk.
Import Schema.

Definition hasAttribute (dm : DataModel) (attrName : string) : bool :=
  match getAttribute (attributes dm) attrName with
  | Some _ => true
  | None => false
  end.

(** Modelled from the spec: [getDataModels] of the sdk package is not among
    the sources; it yields the entities of the schema graph, here each with
    its position among the declarations, and leaves out the data models
    marked [@@ignore]. *)
Definition getDataModels (m : Model) : list (nat * DataModel) :=
  flat_map (fun e => match snd e with
                     | DataModelDecl dm =>
                         if hasAttribute dm "@@ignore" then [] else [(fst e, dm)]
                     | OtherDecl _ => []
                     end) (indexed m).

End Sdk.

(** ** The plugin entry point (packages/schema/src/plugins/enhancer/index.ts) *)

Module Plugin.
Import Str Regex Schema Tree Enhancer.

(** The value of a plugin option: a string, or a value of another kind, of
    which the entry point only reads whether it is truthy. *)
Inductive OptionValue :=
| StringValue (s : string)
| OtherValue (isTruthy : bool).

(** The truthiness of an option that may be absent. *)
Definition truthy (v : option OptionValue) : bool :=
  match v with
  | Some (StringValue s) => negb (String.eqb s EmptyString)
  | Some (OtherValue t) => t
  | None => false
  end.

Record RunResult := {
  dmmf : bool;                          (* whether [dmmf] is defined *)
  warnings : list string;
  prismaClientPath : option string
}.

Section Run.

(** Not among the sources: [getDataModels] and [isDefaultWithAuth] as for
    the generator; the default output folder [getDefaultOutputFolder
    (globalOptions)]; [resolvePath (outDir, options)]; the generators of the
    model metadata and of the policy, of which the model keeps whether they
    return; [getPrismaClientImportSpec]; and the path of [models] under the
    output folder relative to the folder of the schema
    ([path.relative (path.dirname (options.schemaPath),
    path.resolve (options.output, 'models'))]). *)
Variable getDataModels : Model -> list (nat * DataModel).
Variable isDefaultWithAuth : Attribute -> bool.
Variable getDefaultOutputFolder : option string.
Variable resolvePath : OptionValue -> outcome string.
Variable generateModelMeta : string -> outcome unit.
Variable generatePolicy : string -> outcome unit.
Variable getPrismaClientImportSpec : string -> string.
Variable modelsPathFromSchema : string -> string.

(** [run]: [output] is [options.output]; the log holds what the enhancer
    generator does to the outside. *)
Definition run (fuel : nat) (model : Model) (output : option OptionValue) (w : World)
  : list Event * outcome RunResult :=
  let outDir :=
    if truthy output then output
    else match getDefaultOutputFolder with
         | Some d => Some (StringValue d)
         | None => None
         end in
  match outDir with
  | Some dir =>
      if truthy outDir then
        match resolvePath dir with
        | Returns outDir' =>
            match generateModelMeta outDir' with
            | Returns _ =>
                match generatePolicy outDir' with
                | Returns _ =>
                    match generate getDataModels isDefaultWithAuth fuel model w
                            (getPrismaClientImportSpec outDir') with
                    | (log, Returns hasDmmf) =>
                        let prismaClientPath :=
                          if hasDmmf then
                            (* a logical client is generated *)
                            match output with
                            | Some (StringValue o) => Some (modelsPathFromSchema o)
                            | _ => Some ".zenstack/models"
                            end
                          else None in
                        (log, Returns {| dmmf := hasDmmf; warnings := [];
                                         prismaClientPath := prismaClientPath |})
                    | (log, Throws e) => (log, Throws e)
                    | (log, OutOfFuel) => (log, OutOfFuel)
                    | (log, OutOfFragment) => (log, OutOfFragment)
                    end
                | Throws e => ([], Throws e)
                | OutOfFuel => ([], OutOfFuel)
                | OutOfFragment => ([], OutOfFragment)
                end
            | Throws e => ([], Throws e)
            | OutOfFuel => ([], OutOfFuel)
            | OutOfFragment => ([], OutOfFragment)
            end
        | Throws e => ([], Throws e)
        | OutOfFuel => ([], OutOfFuel)
        | OutOfFragment => ([], OutOfFragment)
        end
      else ([], Throws "Unable to determine output path, not running plugin")
  | None => ([], Throws "Unable to determine output path, not running plugin")
  end.

End Run.

End Plugin.

(** ** Type expressions with their aux property signatures marked

    The text of a type expression cut into pieces: text that is kept, and
    the outermost property signatures of the reserved prefix, each with the
    property signatures of the reserved prefix that lie inside it, in
    document order.  Property signatures of other names are part of the
    kept text. *)

Module Pieces.
Import Str Tree Enhancer.

Inductive piece :=
| Kept (t : string)
| Aux (p : PropertySignature) (inner : list PropertySignature).

Definition pieceText (pc : piece) : string :=
  match pc with
  | Kept t => t
  | Aux p _ => psText p
  end.

Fixpoint text (ps : list piece) : string :=
  match ps with
  | [] => EmptyString
  | pc :: rest => pieceText pc ++ text rest
  end.

(** The property signatures of the reserved prefix, in document order. *)
Fixpoint auxNodes (ps : list piece) : list PropertySignature :=
  match ps with
  | [] => []
  | Kept _ :: rest => auxNodes rest
  | Aux p inner :: rest => (p :: inner) ++ auxNodes rest
  end.

(** The expression without its property signatures of the reserved
    prefix. *)
Fixpoint kept (ps : list piece) : string :=
  match ps with
  | [] => EmptyString
  | Kept t :: rest => t ++ kept rest
  | Aux _ _ :: rest => kept rest
  end.

(** [x] occurs in [done ++ x] at a position inside [done]. *)
Fixpoint occursEarly (x done : string) : bool :=
  match done with
  | EmptyString => false
  | String _ d => startsWith x (done ++ x) || occursEarly x d
  end.

(** No text collides: the text of an outermost signature of the reserved
    prefix does not occur earlier in what is kept before it, and the text of
    a signature inside it occurs nowhere in what is left once it is cut
    out. *)
Fixpoint inPlace (done : string) (ps : list piece) : bool :=
  match ps with
  | [] => true
  | Kept t :: rest => inPlace (done ++ t) rest
  | Aux p inner :: rest =>
      negb (occursEarly (psText p) done)
      && forallb (fun q => negb (occursIn (psText q) (done ++ text rest))) inner
      && inPlace done rest
  end.

End Pieces.

(** ** Schemas and declarations used as concrete inputs *)

Module Examples.
Import Str Regex Schema Tree Enhancer.

Definition delegateMarker (field : string) : Attribute :=
  {| decl := "@@delegate";
     args := [{| resolvedParam := Some "discriminator";
                 value := ReferenceExpr field (Some field) |}] |}.

Definition scalar (n : string) : DataModelField :=
  {| fieldName := n; fieldAttributes := [] |}.

(** A type literal with one member per line, as the client generator
    prints it. *)
Definition literal (members : list string) : string :=
  "{" ++ nl ++ String.concat EmptyString (map (fun x => "  " ++ x ++ nl) members) ++ "}".

Definition prop (n rest : string) : PropertySignature :=
  {| psName := n; psText := n ++ rest |}.

(** [Base(delegate, id, kind)], [A extends Base], [B extends Base]. *)
Definition Base : DataModel :=
  {| name := "Base"; fields := [scalar "id"; scalar "kind"];
     attributes := [delegateMarker "kind"]; superTypes := [] |}.
Definition A : DataModel :=
  {| name := "A"; fields := [scalar "a"]; attributes := []; superTypes := [Some 0] |}.
Definition B : DataModel :=
  {| name := "B"; fields := [scalar "b"]; attributes := []; superTypes := [Some 0] |}.
Definition baseModel : Model :=
  {| declarations := [DataModelDecl Base; DataModelDecl A; DataModelDecl B] |}.

Definition basePayload : TypeAliasDeclaration :=
  {| taName := "$BasePayload";
     taType := literal ["name: 'Base'"; "scalars: BaseScalars"];
     taProps := [prop "name" ": 'Base'"; prop "scalars" ": BaseScalars"] |}.

(** [Base(delegate, id, kind)], [Mid(delegate, extends Base, type)],
    [Leaf(extends Mid, url)]. *)
Definition Mid : DataModel :=
  {| name := "Mid"; fields := [scalar "type"];
     attributes := [delegateMarker "type"]; superTypes := [Some 0] |}.
Definition Leaf : DataModel :=
  {| name := "Leaf"; fields := [scalar "url"]; attributes := [];
     superTypes := [Some 1] |}.
Definition twoLevelModel : Model :=
  {| declarations := [DataModelDecl Base; DataModelDecl Mid; DataModelDecl Leaf] |}.

(** A malformed schema: a delegate-marked entity that lists itself as its
    supertype. *)
Definition Loop : DataModel :=
  {| name := "Loop"; fields := [scalar "kind"];
     attributes := [delegateMarker "kind"]; superTypes := [Some 0] |}.
Definition cyclicModel : Model := {| declarations := [DataModelDecl Loop] |}.

(** The data models of a schema with their positions, and a reading of
    [isDefaultWithAuth]: a [@default] attribute whose argument invokes
    [auth]. *)
Definition allDataModels (m : Model) : list (nat * DataModel) :=
  flat_map (fun e => match snd e with
                     | DataModelDecl dm => [(fst e, dm)]
                     | OtherDecl _ => []
                     end) (indexed m).

Definition defaultWithAuth (a : Attribute) : bool :=
  String.eqb (decl a) "@default"
  && existsb (fun x => match value x with
                       | InvocationExpr f => String.eqb f "auth"
                       | _ => false
                       end) (args a).

Definition authDefault : Attribute :=
  {| decl := "@default";
     args := [{| resolvedParam := Some "value"; value := InvocationExpr "auth" |}] |}.

(** [User(id)], [Post(id, ownerId @default(auth()))]: no delegate marker. *)
Definition User : DataModel :=
  {| name := "User"; fields := [scalar "id"]; attributes := []; superTypes := [] |}.
Definition Post : DataModel :=
  {| name := "Post";
     fields := [scalar "id";
                {| fieldName := "ownerId"; fieldAttributes := [authDefault] |}];
     attributes := []; superTypes := [] |}.
Definition authOnlyModel : Model :=
  {| declarations := [DataModelDecl User; DataModelDecl Post] |}.

(** [Asset(delegate, id, kind)] without any sub model, next to [Post]. *)
Definition Asset : DataModel :=
  {| name := "Asset"; fields := [scalar "id"; scalar "kind"];
     attributes := [delegateMarker "kind"]; superTypes := [] |}.
Definition lonelyModel : Model :=
  {| declarations := [DataModelDecl Asset; DataModelDecl Post] |}.

Definition method (n : string) : MemberStructure :=
  {| memberName := n; memberRest := "(args: any): any" |}.

Definition emptyBlock : ModuleBlock :=
  {| mbImportEquals := []; mbClasses := []; mbFunctions := []; mbModules := [];
     mbVariables := []; mbInterfaces := []; mbTypeAliases := []; mbOthers := [] |}.

Definition fileWith (b : ModuleBlock) : SourceFile :=
  {| sfImports := []; sfImportEquals := []; sfExportAssignments := [];
     sfTypeAliases := []; sfClasses := []; sfVariables := [];
     sfModules := [{| modName := "Prisma"; modBlock := b |}]; sfOthers := [] |}.

Definition assetDelegate : InterfaceDeclaration :=
  {| ifName := "AssetDelegate"; ifProperties := [];
     ifMethods := [method "findMany"; method "create"] |}.

Definition assetPayload : TypeAliasDeclaration :=
  {| taName := "$AssetPayload";
     taType := literal ["name: 'Asset'"; "scalars: AssetScalars"];
     taProps := [prop "name" ": 'Asset'"; prop "scalars" ": AssetScalars"] |}.

(** The client of [lonelyModel]: the operations interface of [Asset]. *)
Definition lonelyFile : SourceFile :=
  fileWith {| mbImportEquals := []; mbClasses := []; mbFunctions := [];
              mbModules := []; mbVariables := [];
              mbInterfaces := [assetDelegate]; mbTypeAliases := [];
              mbOthers := [] |}.

(** A client whose namespace has an interface with a member of the
    reserved prefix. *)
Definition auxClient : InterfaceDeclaration :=
  {| ifName := "Prisma__PostClient";
     ifProperties := [];
     ifMethods := [method "owner"; method "delegate_aux_post"] |}.

Definition auxFile : SourceFile :=
  fileWith {| mbImportEquals := []; mbClasses := []; mbFunctions := [];
              mbModules := []; mbVariables := [];
              mbInterfaces := [auxClient]; mbTypeAliases := [];
              mbOthers := [] |}.

(** The external generator fails the first time and succeeds when run
    again. *)
Definition flakyWorld : World :=
  {| execPackage := fun n => match n with 0 => false | _ => true end;
     clientTypes := lonelyFile |}.

Definition steadyWorld (sf : SourceFile) : World :=
  {| execPackage := fun _ => true; clientTypes := sf |}.

(** [Media(delegate, id, subkind, kind)], [Video(extends Media, url)],
    [Document(extends Media, pages)], and a second hierarchy
    [Account(delegate, id, role)], [Admin(extends Account, level)]. *)
Definition Media : DataModel :=
  {| name := "Media"; fields := [scalar "id"; scalar "subkind"; scalar "kind"];
     attributes := [delegateMarker "kind"]; superTypes := [] |}.
Definition Video : DataModel :=
  {| name := "Video"; fields := [scalar "url"]; attributes := [];
     superTypes := [Some 0] |}.
Definition Document : DataModel :=
  {| name := "Document"; fields := [scalar "pages"]; attributes := [];
     superTypes := [Some 0] |}.
Definition mediaModel : Model :=
  {| declarations := [DataModelDecl Media; DataModelDecl Video; DataModelDecl Document] |}.

Definition Account : DataModel :=
  {| name := "Account"; fields := [scalar "id"; scalar "role"];
     attributes := [delegateMarker "role"]; superTypes := [] |}.
Definition Admin : DataModel :=
  {| name := "Admin"; fields := [scalar "level"]; attributes := [];
     superTypes := [Some 3] |}.
Definition shopModel : Model :=
  {| declarations := [DataModelDecl Media; DataModelDecl Video; DataModelDecl Document;
                      DataModelDecl Account; DataModelDecl Admin; DataModelDecl User] |}.

(** The create input of [Video] as the client generator prints it for the
    logical schema: the inherited fields, then its own. *)
Definition videoCreateInput : TypeAliasDeclaration :=
  {| taName := "VideoCreateInput";
     taType := literal ["id?: string"; "subkind: string"; "kind: string"; "url: string"];
     taProps := [prop "id" "?: string"; prop "subkind" ": string";
                 prop "kind" ": string"; prop "url" ": string"] |}.

(** What the parser reports for the transformed [videoCreateInput]. *)
Definition videoCreateInputAgain : TypeAliasDeclaration :=
  {| taName := "VideoCreateInput";
     taType := literal ["id?: string"; "sub"; "kind: string"; "url: string"];
     taProps := [prop "id" "?: string"; prop "sub" EmptyString;
                 prop "kind" ": string"; prop "url" ": string"] |}.

(** The create input of [Leaf] in the two-level hierarchy. *)
Definition leafCreateInput : TypeAliasDeclaration :=
  {| taName := "LeafCreateInput";
     taType := literal ["id?: string"; "kind: string"; "type: string"; "url: string"];
     taProps := [prop "id" "?: string"; prop "kind" ": string";
                 prop "type" ": string"; prop "url" ": string"] |}.

(** The nested upsert input of [User] reached from [Media]: not a
    create/update input of a delegate. *)
Definition userUpsertWithoutMediaInput : TypeAliasDeclaration :=
  {| taName := "UserUpsertWithoutMediaInput";
     taType := literal ["update: UserUpdateWithoutMediaInput";
                        "create: UserCreateWithoutMediaInput";
                        "where?: UserWhereInput"];
     taProps := [prop "update" ": UserUpdateWithoutMediaInput";
                 prop "create" ": UserCreateWithoutMediaInput";
                 prop "where" "?: UserWhereInput"] |}.

(** [Widget(delegate, id, kind)], [Gear(extends Widget, teeth)]. *)
Definition Widget : DataModel :=
  {| name := "Widget"; fields := [scalar "id"; scalar "kind"];
     attributes := [delegateMarker "kind"]; superTypes := [] |}.
Definition Gear : DataModel :=
  {| name := "Gear"; fields := [scalar "teeth"]; attributes := [];
     superTypes := [Some 0] |}.
Definition widgetModel : Model :=
  {| declarations := [DataModelDecl Widget; DataModelDecl Gear] |}.


(** A nested create input of the delegate [Widget]. *)
Definition widgetCreateNestedInput : TypeAliasDeclaration :=
  {| taName := "WidgetCreateNestedOneWithoutPartsInput";
     taType := literal ["create?: WidgetCreateWithoutPartsInput";
                        "connectOrCreate?: WidgetCreateOrConnectWithoutPartsInput";
                        "connect?: WidgetWhereUniqueInput"];
     taProps := [prop "create" "?: WidgetCreateWithoutPartsInput";
                 prop "connectOrCreate" "?: WidgetCreateOrConnectWithoutPartsInput";
                 prop "connect" "?: WidgetWhereUniqueInput"] |}.

(** The namespace of the client of [lonelyModel]. *)
Definition lonelyNamespace : ModuleDeclaration :=
  {| modName := "Prisma";
     modBlock := {| mbImportEquals := []; mbClasses := []; mbFunctions := [];
                    mbModules := []; mbVariables := [];
                    mbInterfaces := [assetDelegate];
                    mbTypeAliases := [assetPayload];
                    mbOthers := [] |} |}.

(** A malformed schema: two delegate-marked entities that list each other
    as supertypes. *)
Definition Ping : DataModel :=
  {| name := "Ping"; fields := [scalar "kind"];
     attributes := [delegateMarker "kind"]; superTypes := [Some 1] |}.
Definition Pong : DataModel :=
  {| name := "Pong"; fields := [scalar "type"];
     attributes := [delegateMarker "type"]; superTypes := [Some 0] |}.
Definition pingPongModel : Model :=
  {| declarations := [DataModelDecl Ping; DataModelDecl Pong] |}.

(** The payload of [Video] in the client of [mediaModel]: the relation to
    the base is a property of the reserved prefix inside [objects]. *)
Definition videoPayloadPieces : list Pieces.piece :=
  [Pieces.Kept ("{" ++ nl ++ "  objects: { ");
   Pieces.Aux (prop "delegate_aux_media" ": $MediaPayload<ExtArgs> | null") [];
   Pieces.Kept (" }" ++ nl ++ "  scalars: VideoScalars" ++ nl ++ "}")].

Definition videoPayload : TypeAliasDeclaration :=
  {| taName := "$VideoPayload";
     taType := Pieces.text videoPayloadPieces;
     taProps := [prop "objects" ": { delegate_aux_media: $MediaPayload<ExtArgs> | null }";
                 prop "delegate_aux_media" ": $MediaPayload<ExtArgs> | null";
                 prop "scalars" ": VideoScalars"] |}.

(** The [include] type of [Video]: a property whose text ends like the
    property of the reserved prefix that follows it. *)
Definition videoInclude : TypeAliasDeclaration :=
  {| taName := "VideoInclude";
     taType := literal ["my_delegate_aux_media?: boolean";
                        "delegate_aux_media?: boolean"];
     taProps := [prop "my_delegate_aux_media" "?: boolean";
                 prop "delegate_aux_media" "?: boolean"] |}.

(** A variable of the namespace whose annotation has a property of the
    reserved prefix. *)
Definition relationEnumPieces : list Pieces.piece :=
  [Pieces.Kept ("{" ++ nl ++ "  owner: 'owner'" ++ nl ++ "  ");
   Pieces.Aux (prop "delegate_aux_media" ": 'delegate_aux_media'") [];
   Pieces.Kept (nl ++ "}")].

Definition relationEnum : VariableStatement :=
  {| vsDeclarations := [{| vdName := "VideoRelationEnum";
                           vdType := Some (Pieces.text relationEnumPieces) |}];
     vsProps := [prop "owner" ": 'owner'";
                 prop "delegate_aux_media" ": 'delegate_aux_media'"] |}.

(** A client of [mediaModel]: declarations outside the namespace (a type
    alias with a property of the reserved prefix, an interface) and the
    namespace. *)
Definition mediaNamespace : ModuleDeclaration :=
  {| modName := "Prisma";
     modBlock := {| mbImportEquals := []; mbClasses := []; mbFunctions := [];
                    mbModules := []; mbVariables := [relationEnum];
                    mbInterfaces := [auxClient];
                    mbTypeAliases := [videoPayload; videoInclude];
                    mbOthers := [] |} |}.

Definition mediaFile : SourceFile :=
  {| sfImports := ["import * as runtime from './runtime/library'"];
     sfImportEquals := []; sfExportAssignments := [];
     sfTypeAliases := [videoPayload]; sfClasses := []; sfVariables := [];
     sfModules := [mediaNamespace];
     sfOthers := ["export interface VideoLike { url: string }"] |}.

(** [Media] with its sub model, and a copy of the hierarchy marked
    [@@ignore]. *)
Definition ignoredMarker : Attribute := {| decl := "@@ignore"; args := [] |}.
Definition IgnoredMedia : DataModel :=
  {| name := "Media"; fields := [scalar "id"; scalar "kind"];
     attributes := [delegateMarker "kind"; ignoredMarker]; superTypes := [] |}.
Definition ignoredModel : Model :=
  {| declarations := [DataModelDecl IgnoredMedia; DataModelDecl Video] |}.

End Examples.

(** ** Readings of the index *)

Module Reading.
Import Str Regex Schema Tree Enhancer.

(** The delegate-marked data models among some declarations, in order. *)
Definition markedModels (decls : list Declaration) : list DataModel :=
  flat_map (fun d => match d with
                     | DataModelDecl dm => if isDelegateModel d then [dm] else []
                     | OtherDecl _ => []
                     end) decls.

(** A supertype reference that resolves to a declaration of the model. *)
Definition resolves (m : Model) (superType : option nat) : Prop :=
  exists i base, superType = Some i /\ deref m i = Some base.

(** The discriminator [x] belongs to a delegate-marked data model declared
    in the model. *)
Definition declaredDiscriminator (m : Model) (x : string) : Prop :=
  exists dm, In (DataModelDecl dm) (declarations m)
    /\ isDelegateModel (DataModelDecl dm) = true
    /\ getDiscriminatorField dm = Some x.

(** What the walk returns, if it returns, is some array twice in a row. *)
Definition squared (acc : outcome (list string)) : Prop :=
  forall r, acc = Returns r -> exists half, r = (half ++ half)%list.

(** What a log records of the external generator (quiet or verbose), of
    the saved declarations and of the saved re-exports. *)
Definition generatorRuns (log : list Event) : list bool :=
  flat_map (fun e => match e with PrismaGenerate v => [v] | _ => [] end) log.

Definition savedClientTypes (log : list Event) : list SourceFileStructure :=
  flat_map (fun e => match e with ClientTypesSaved doc => [doc] | _ => [] end) log.

Definition savedReexports (log : list Event) : list string :=
  flat_map (fun e => match e with ReexportSaved from => [from] | _ => [] end) log.

Definition isReference (e : Expression) : bool :=
  match e with ReferenceExpr _ _ => true | _ => false end.

(** Some relation field of the schema lists, among the [fields] of its
    [@relation] attribute, an expression that is not a reference. *)
Definition malformedRelation (m : Model) : Prop :=
  exists dm f attr items item,
    In (DataModelDecl dm) (declarations m)
    /\ In f (fields dm)
    /\ getAttribute (fieldAttributes f) "@relation" = Some attr
    /\ getAttributeArg attr "fields" = Some (ArrayExpr items)
    /\ In item items /\ isReference item = false.

(** The data model [dm] stands at position [i] of the schema and is not
    marked [@@ignore]. *)
Definition entity (m : Model) (i : nat) (dm : DataModel) : Prop :=
  deref m i = Some (DataModelDecl dm) /\ Sdk.hasAttribute dm "@@ignore" = false.

(** Some entity is delegate-marked and some entity lists it as a
    supertype. *)
Definition delegateWithSub (m : Model) : Prop :=
  exists i dm j sub,
    entity m i dm /\ isDelegateModel (DataModelDecl dm) = true
    /\ entity m j sub /\ extends sub i = true.

(** Some field of some entity has a default that reads the current user. *)
Definition authDefaultField (isDefaultWithAuth : Attribute -> bool) (m : Model) : Prop :=
  exists i dm f a,
    entity m i dm /\ In f (fields dm) /\ In a (fieldAttributes f)
    /\ isDefaultWithAuth a = true.

(** The positions [on] hold delegate-marked data models each of which lists
    a member of [on] as a supertype: following these references from a
    member never leaves the set, so it runs into a cycle. *)
Definition delegateCycle (m : Model) (on : nat -> Prop) : Prop :=
  forall i, on i ->
    exists dm j,
      deref m i = Some (DataModelDecl dm)
      /\ isDelegateModel (DataModelDecl dm) = true
      /\ In (Some j) (superTypes dm) /\ on j.

(** The rewrites of [transformTypeAlias] that follow the stripping of aux
    fields, applied to the text that stripping left. *)
Definition rewritesAfterAux (fuel : nat) (m : Model) (typeAlias : TypeAliasDeclaration)
    (delegateInfo : DelegateInfo) (source : string) : outcome string :=
  source <- removeDiscriminatorFromConcreteInput fuel m typeAlias delegateInfo source ;;
  source <- removeCreateFromDelegateInput typeAlias delegateInfo source ;;
  source <- removeDelegateFieldsFromNestedMutationInput m typeAlias delegateInfo source ;;
  Returns (fixDelegatePayloadType typeAlias delegateInfo source).

End Reading.

(** ** Conditions on schemas *)

Module Conditions.
Import Str Regex Schema Tree Enhancer.

(** The delegate-marked data models of [m] have pairwise distinct names (a
    schema declares each name once). *)
Definition distinctDelegateNames (m : Model) : Prop :=
  forall i j a b,
    deref m i = Some (DataModelDecl a) ->
    deref m j = Some (DataModelDecl b) ->
    isDelegateModel (DataModelDecl a) = true ->
    isDelegateModel (DataModelDecl b) = true ->
    name a = name b -> i = j.

(** The supertype references of delegate-marked entities descend along a
    rank: they form no cycle. *)
Definition ranked (m : Model) (rank : nat -> nat) : Prop :=
  forall i dm j,
    deref m i = Some (DataModelDecl dm) ->
    isDelegateModel (DataModelDecl dm) = true ->
    In (Some j) (superTypes dm) ->
    rank j < rank i.

(** The loop of the walk over the supertypes of one entity. *)
Definition walkSupers (fuel : nat) (m : Model) (supers : list (option nat))
    (start : outcome (list string)) : outcome (list string) :=
  fold_left
    (fun acc superType =>
       cur <- acc ;;
       match superType with
       | Some i =>
           match deref m i with
           | Some base =>
               r <- getDiscriminatorFieldsRecursively fuel m base cur ;;
               Returns (r ++ r)%list
           | None => Returns cur
           end
       | None => Returns cur
       end)
    supers start.

Section Triggers.

Variable getDataModels : Model -> list (nat * DataModel).
Variable isDefaultWithAuth : Attribute -> bool.

(** Some data model is delegate-marked and some data model lists it as a
    supertype. *)
Definition someDelegateWithSub (model : Model) : Prop :=
  exists dm, In dm (getDataModels model)
    /\ isDelegateModel (DataModelDecl (snd dm)) = true
    /\ exists sub, In sub (getDataModels model) /\ extends (snd sub) (fst dm) = true.

(** Some field of some data model has a default that reads the current
    user. *)
Definition someAuthDefault (model : Model) : Prop :=
  exists dm, In dm (getDataModels model)
    /\ exists f, In f (fields (snd dm))
    /\ exists a, In a (fieldAttributes f) /\ isDefaultWithAuth a = true.

End Triggers.

End Conditions.

(** ** Properties *)

Module Facts.
Import Str Regex Schema Tree Enhancer Conditions.

(** *** Strings *)

Lemma append_empty_r (s : string) : s ++ EmptyString = s.
Proof. induction s as [|c s IH]; simpl; [reflexivity | now rewrite IH]. Qed.

Lemma append_assoc (a b c : string) : (a ++ b) ++ c = a ++ (b ++ c).
Proof. induction a as [|x a IH]; simpl; [reflexivity | now rewrite IH]. Qed.

Lemma length_append (a b : string) :
  String.length (a ++ b) = String.length a + String.length b.
Proof. induction a as [|x a IH]; simpl; [reflexivity | now rewrite IH]. Qed.

Lemma append_inv_tail (a b c : string) : a ++ c = b ++ c -> a = b.
Proof.
  revert b; induction a as [|x a IH]; intros [|y b] H; simpl in H.
  - reflexivity.
  - apply (f_equal String.length) in H. simpl in H. rewrite length_append in H. lia.
  - apply (f_equal String.length) in H. simpl in H. rewrite length_append in H. lia.
  - injection H as -> H. f_equal. now apply IH.
Qed.

Lemma append_inv_head (a b c : string) : a ++ b = a ++ c -> b = c.
Proof.
  induction a as [|x a IH]; simpl; intros H; [assumption|].
  injection H as H. now apply IH.
Qed.

(** *** The hierarchy index *)

Lemma in_combine_seq {A : Type} (l : list A) (k j : nat) (d : A) :
  In (j, d) (combine (seq k (List.length l)) l) ->
  k <= j /\ nth_error l (j - k) = Some d.
Proof.
  revert k; induction l as [|x l IH]; simpl; intros k H; [contradiction|].
  destruct H as [H | H].
  - injection H as <- <-. rewrite Nat.sub_diag. split; [lia | reflexivity].
  - apply IH in H as [Hle Hn]. split; [lia|].
    replace (j - k) with (S (j - S k)) by lia. exact Hn.
Qed.

Lemma combine_seq_in {A : Type} (l : list A) (k j : nat) (d : A) :
  nth_error l j = Some d -> In (k + j, d) (combine (seq k (List.length l)) l).
Proof.
  revert k j; induction l as [|x l IH]; intros k [|j] H; simpl in *; try discriminate.
  - injection H as <-. left. f_equal. lia.
  - right. replace (k + S j) with (S k + j) by lia. now apply IH.
Qed.

Lemma in_indexed (m : Model) (j : nat) (d : Declaration) :
  In (j, d) (indexed m) <-> deref m j = Some d.
Proof.
  unfold indexed, deref. split; intros H.
  - apply in_combine_seq in H as [_ H]. now rewrite Nat.sub_0_r in H.
  - now apply (combine_seq_in _ 0).
Qed.

Lemma find_by_name_in (m : Model) (i : nat) (delegate : DataModel)
    (p : DataModel * list DataModel -> bool) (l : list (nat * Declaration)) :
  distinctDelegateNames m ->
  deref m i = Some (DataModelDecl delegate) ->
  isDelegateModel (DataModelDecl delegate) = true ->
  (forall e, p e = true <-> name (fst e) = name delegate) ->
  (forall e, In e l -> In e (indexed m)) ->
  In (i, DataModelDecl delegate) l ->
  find p (flat_map (delegateEntry m) l) = Some (delegate, subModels m i).
Proof.
  intros Hdist Hi Hdel Hp.
  induction l as [|[j d] l IH]; intros Hsub Hin; [contradiction|].
  assert (Hj : deref m j = Some d) by (apply in_indexed, Hsub; now left).
  assert (Hsub' : forall e, In e l -> In e (indexed m))
    by (intros e He; apply Hsub; now right).
  simpl. unfold delegateEntry at 1. simpl.
  destruct d as [dm|n].
  - destruct (isDelegateModel (DataModelDecl dm)) eqn:Hdm.
    + simpl. destruct (p (dm, subModels m j)) eqn:Hpe.
      * apply Hp in Hpe. simpl in Hpe.
        assert (j = i) by (eapply Hdist; eauto). subst j.
        rewrite Hi in Hj. now injection Hj as ->.
      * destruct Hin as [Heq | Hin].
        -- injection Heq as -> ->.
           assert (p (delegate, subModels m i) = true) by now apply Hp.
           congruence.
        -- now apply IH.
    + simpl. destruct Hin as [Heq | Hin].
      * injection Heq as -> ->. congruence.
      * now apply IH.
  - simpl. destruct Hin as [Heq | Hin]; [discriminate|].
    now apply IH.
Qed.

(** Looking an entry up by the name of its delegate finds the entry built
    for that delegate. *)
Lemma find_by_name (m : Model) (i : nat) (delegate : DataModel)
    (p : DataModel * list DataModel -> bool) :
  distinctDelegateNames m ->
  deref m i = Some (DataModelDecl delegate) ->
  isDelegateModel (DataModelDecl delegate) = true ->
  (forall e, p e = true <-> name (fst e) = name delegate) ->
  find p (buildDelegateInfo m) = Some (delegate, subModels m i).
Proof.
  intros Hdist Hi Hdel Hp. unfold buildDelegateInfo.
  apply find_by_name_in; auto. now apply in_indexed.
Qed.

Lemma payload_name_eqb (a b : string) :
  String.eqb ("$" ++ a ++ "Payload") ("$" ++ b ++ "Payload") = true <-> a = b.
Proof.
  rewrite String.eqb_eq. split; intros H; [|now subst].
  simpl in H. injection H as H. now apply append_inv_tail in H.
Qed.

(** *** Payload union synthesis *)

Lemma fixDelegatePayloadType_resolved (m : Model) (i : nat) (delegate : DataModel)
    (d : string) (typeAlias : TypeAliasDeclaration) (source : string) :
  distinctDelegateNames m ->
  deref m i = Some (DataModelDecl delegate) ->
  isDelegateModel (DataModelDecl delegate) = true ->
  taName typeAlias = "$" ++ name delegate ++ "Payload" ->
  fixDelegatePayloadType typeAlias (buildDelegateInfo m) source =
  match getDiscriminatorField delegate with
  | Some d => join " | " (map (payloadMember d) (subModels m i))
  | None => source
  end.
Proof.
  intros Hdist Hi Hdel Hname. unfold fixDelegatePayloadType.
  rewrite (find_by_name m i delegate); auto.
  intros e. rewrite Hname. apply payload_name_eqb.
Qed.

(** The rewrite of the payload alias of a delegate, and its place as the
    last rewrite of an alias. *)
Lemma payload_rewrite (m : Model) (i : nat) (delegate : DataModel)
    (typeAlias : TypeAliasDeclaration) :
  distinctDelegateNames m ->
  deref m i = Some (DataModelDecl delegate) ->
  isDelegateModel (DataModelDecl delegate) = true ->
  taName typeAlias = "$" ++ name delegate ++ "Payload" ->
  (forall d, getDiscriminatorField delegate = Some d ->
     let union := join " | " (map (payloadMember d) (subModels m i)) in
     (forall source,
        fixDelegatePayloadType typeAlias (buildDelegateInfo m) source = union)
     /\ (forall fuel out,
           transformTypeAlias fuel m typeAlias (buildDelegateInfo m) = Returns out ->
           tasType out = union))
  /\ (getDiscriminatorField delegate = None ->
      forall source,
        fixDelegatePayloadType typeAlias (buildDelegateInfo m) source = source).
Proof.
  intros Hdist Hi Hdel Hname. split.
  - intros d Hd union.
    assert (Hfix : forall source,
               fixDelegatePayloadType typeAlias (buildDelegateInfo m) source = union).
    { intros source.
      rewrite (fixDelegatePayloadType_resolved m i delegate d); auto.
      now rewrite Hd. }
    split; [exact Hfix|].
    intros fuel out H. unfold transformTypeAlias in H.
    destruct (removeDiscriminatorFromConcreteInput _ _ _ _ _); simpl in H; try discriminate.
    destruct (removeCreateFromDelegateInput _ _ _); simpl in H; try discriminate.
    destruct (removeDelegateFieldsFromNestedMutationInput _ _ _ _); simpl in H;
      try discriminate.
    injection H as <-. simpl. apply Hfix.
  - intros Hd source.
    rewrite (fixDelegatePayloadType_resolved m i delegate EmptyString); auto.
    now rewrite Hd.
Qed.

(** C1.  For a delegate base entity whose discriminator resolves to the field
    [d], the alias [$<Delegate>Payload] gets, whatever its type expression
    was, the union over the delegate's sub models in index order of
    [($<Sub>Payload<ExtArgs> & { scalars: { d: '<Sub>' } })] (the code writes
    the payload reference with its type argument), and this is the type the
    transformed alias has whenever the transformation of the alias returns;
    if the discriminator does not resolve, the rewrite leaves the type
    expression it is given untouched. *)
Theorem C1_payload_union (m : Model) (i : nat) (delegate : DataModel)
    (typeAlias : TypeAliasDeclaration) :
  distinctDelegateNames m ->
  deref m i = Some (DataModelDecl delegate) ->
  isDelegateModel (DataModelDecl delegate) = true ->
  taName typeAlias = "$" ++ name delegate ++ "Payload" ->
  (forall d, getDiscriminatorField delegate = Some d ->
     let union := join " | " (map (payloadMember d) (subModels m i)) in
     (forall source,
        fixDelegatePayloadType typeAlias (buildDelegateInfo m) source = union)
     /\ (forall fuel out,
           transformTypeAlias fuel m typeAlias (buildDelegateInfo m) = Returns out ->
           tasType out = union))
  /\ (getDiscriminatorField delegate = None ->
      forall source,
        fixDelegatePayloadType typeAlias (buildDelegateInfo m) source = source).
Proof. exact (payload_rewrite m i delegate typeAlias). Qed.

Ltac concrete_distinct :=
  let i := fresh "i" in let j := fresh "j" in
  let Hi := fresh "Hi" in let Hj := fresh "Hj" in
  intros i j ? ? Hi Hj ? ? ?; unfold deref in Hi, Hj; simpl in Hi, Hj;
  repeat (destruct i as [|i]; simpl in Hi; try discriminate Hi);
  repeat (destruct j as [|j]; simpl in Hj; try discriminate Hj);
  injection Hi as <-; injection Hj as <-;
  try reflexivity; discriminate.

Lemma baseModel_distinct : distinctDelegateNames Examples.baseModel.
Proof. concrete_distinct. Qed.

Lemma C1_payload_union_witness :
  fixDelegatePayloadType Examples.basePayload (buildDelegateInfo Examples.baseModel)
                         (taType Examples.basePayload)
  = "($APayload<ExtArgs> & { scalars: { kind: 'A' } }) | ($BPayload<ExtArgs> & { scalars: { kind: 'B' } })".
Proof.
  exact (proj1 (proj1 (C1_payload_union Examples.baseModel 0 Examples.Base
                         Examples.basePayload baseModel_distinct
                         eq_refl eq_refl eq_refl)
                      "kind" eq_refl)
               (taType Examples.basePayload)).
Defined.

(** *** The discriminator-chain walk *)

Lemma walkSupers_returns (fuel : nat) (m : Model) (supers : list (option nat)) :
  (forall j base cur, In (Some j) supers -> deref m j = Some base ->
     exists r, getDiscriminatorFieldsRecursively fuel m base cur = Returns r) ->
  forall cur, exists r, walkSupers fuel m supers (Returns cur) = Returns r.
Proof.
  unfold walkSupers.
  induction supers as [|s supers IH]; intros Hcall cur; simpl.
  - now exists cur.
  - assert (Hrest : forall j base cur, In (Some j) supers -> deref m j = Some base ->
              exists r, getDiscriminatorFieldsRecursively fuel m base cur = Returns r)
      by (intros j base c Hin; apply Hcall; now right).
    destruct s as [j|]; [|now apply IH].
    destruct (deref m j) as [base|] eqn:Hj; [|now apply IH].
    destruct (Hcall j base cur (or_introl eq_refl) Hj) as [r ->]. simpl.
    now apply IH.
Qed.

Lemma walk_returns (m : Model) (rank : nat -> nat) :
  ranked m rank ->
  forall fuel i d result,
    deref m i = Some d -> rank i < fuel ->
    exists r, getDiscriminatorFieldsRecursively fuel m d result = Returns r.
Proof.
  intros Hrank. induction fuel as [|fuel IH]; intros i d result Hi Hlt; [lia|].
  simpl. destruct d as [dm|n]; [|now eexists].
  destruct (isDelegateModel (DataModelDecl dm)) eqn:Hdel; [|now eexists].
  apply (walkSupers_returns fuel m (superTypes dm)).
  intros j base cur Hin Hj. apply (IH j); [assumption|].
  specialize (Hrank i dm j Hi Hdel Hin). lia.
Qed.

Lemma cyclic_walk_out_of_fuel (fuel : nat) (result : list string) :
  getDiscriminatorFieldsRecursively fuel Examples.cyclicModel
    (DataModelDecl Examples.Loop) result = OutOfFuel.
Proof.
  revert result. induction fuel as [|fuel IH]; intros result; [reflexivity|].
  simpl. unfold deref. simpl. now rewrite IH.
Qed.

(** C7, as stated, fails: on a schema in which a delegate-marked entity lists
    itself as a supertype the walk returns for no recursion depth. *)
Lemma C7_cyclic_walk_never_returns :
  ~ exists fuel r,
      getDiscriminatorFieldsRecursively fuel Examples.cyclicModel
        (DataModelDecl Examples.Loop) [] = Returns r.
Proof.
  intros [fuel [r H]]. rewrite cyclic_walk_out_of_fuel in H. discriminate.
Qed.

Lemma twoLevel_ranked : ranked Examples.twoLevelModel (fun i => i).
Proof.
  intros i dm j Hi Hdel Hin. unfold deref in Hi. simpl in Hi.
  repeat (destruct i as [|i]; simpl in Hi; try discriminate Hi);
    injection Hi as <-; simpl in Hin; try discriminate Hdel;
    repeat (destruct Hin as [Hin | Hin]; [injection Hin as <-; lia|]);
    contradiction.
Qed.

(** *** Which client a run needs *)

Section NeedsLogicalClient.

Variable getDataModels : Model -> list (nat * DataModel).
Variable isDefaultWithAuth : Attribute -> bool.

Lemma hasDelegateModel_spec (model : Model) :
  hasDelegateModel getDataModels model = true
  <-> someDelegateWithSub getDataModels model.
Proof.
  unfold hasDelegateModel, someDelegateWithSub. rewrite existsb_exists.
  split.
  - intros [dm [Hin H]]. apply andb_true_iff in H as [Hd Hs].
    apply existsb_exists in Hs. eauto.
  - intros [dm [Hin [Hd Hs]]]. exists dm. split; [assumption|].
    apply andb_true_iff. split; [assumption|]. now apply existsb_exists.
Qed.

Lemma hasAuthInDefault_spec (model : Model) :
  hasAuthInDefault getDataModels isDefaultWithAuth model = true
  <-> someAuthDefault getDataModels isDefaultWithAuth model.
Proof.
  unfold hasAuthInDefault, someAuthDefault. rewrite existsb_exists.
  split.
  - intros [dm [Hin H]]. apply existsb_exists in H as [f [Hf H]].
    apply existsb_exists in H. eauto.
  - intros [dm [Hin [f [Hf Ha]]]]. exists dm. split; [assumption|].
    apply existsb_exists. exists f. split; [assumption|].
    now apply existsb_exists.
Qed.

End NeedsLogicalClient.

(** *** The external generator *)

(** C8, as stated, fails: when the first invocation fails and the second
    one succeeds, the run still ends with the fatal error. *)
Lemma C8_successful_retry_is_fatal :
  execPackage Examples.flakyWorld 0 = false
  /\ execPackage Examples.flakyWorld 1 = true
  /\ generateLogicalPrisma 1 Examples.lonelyModel Examples.flakyWorld
     = ([LogicalSchemaGenerated; PrismaGenerate false; SchemaErrorTracked;
         PrismaGenerate true],
        Throws "Failed to run prisma generate on logical schema").
Proof. repeat split. Qed.

(** C8, amended.  When the external generator invocation fails, it is run
    exactly once more, with its output on the console, and the run then ends
    with the fatal error whether or not the second invocation fails; neither
    the transformed declarations nor the re-export module is written. *)
Theorem C8_failure_is_fatal_after_one_verbose_run
    (getDataModels : Model -> list (nat * DataModel))
    (isDefaultWithAuth : Attribute -> bool)
    (fuel : nat) (model : Model) (w : World) (prismaImport : string) :
  execPackage w 0 = false ->
  let failure :=
    ([LogicalSchemaGenerated; PrismaGenerate false; SchemaErrorTracked;
      PrismaGenerate true],
     @Throws unit "Failed to run prisma generate on logical schema") in
  generateLogicalPrisma fuel model w = failure
  /\ count_occ Bool.bool_dec
       (flat_map (fun e => match e with PrismaGenerate v => [v] | _ => [] end)
                 (fst (generateLogicalPrisma fuel model w))) true = 1
  /\ (needsLogicalClient getDataModels isDefaultWithAuth model = true ->
      generate getDataModels isDefaultWithAuth fuel model w prismaImport
      = (fst failure, Throws "Failed to run prisma generate on logical schema")).
Proof.
  intros Hfail failure. unfold generate, generateLogicalPrisma. rewrite Hfail.
  repeat split. intros ->. reflexivity.
Qed.

Lemma C8_failure_is_fatal_after_one_verbose_run_witness :
  generateLogicalPrisma 1 Examples.lonelyModel Examples.flakyWorld
  = ([LogicalSchemaGenerated; PrismaGenerate false; SchemaErrorTracked;
      PrismaGenerate true],
     Throws "Failed to run prisma generate on logical schema").
Proof.
  exact (proj1 (C8_failure_is_fatal_after_one_verbose_run
                  Examples.allDataModels Examples.defaultWithAuth
                  1 Examples.lonelyModel Examples.flakyWorld "@prisma/client"
                  eq_refl)).
Defined.

(** *** The copy branch *)

Lemma buildDelegateInfo_nil (m : Model) :
  (forall d, In d (declarations m) -> isDelegateModel d = false) ->
  buildDelegateInfo m = [].
Proof.
  intros H. unfold buildDelegateInfo.
  assert (Hall : forall e, In e (indexed m) -> delegateEntry m e = []).
  { intros [j d] He. apply in_indexed in He. unfold deref in He.
    apply nth_error_In in He. unfold delegateEntry. simpl.
    destruct d as [dm|n]; [|reflexivity]. now rewrite (H _ He). }
  induction (indexed m) as [|e l IH]; [reflexivity|].
  simpl. rewrite (Hall e (or_introl eq_refl)). simpl.
  apply IH. intros e' He'. apply Hall. now right.
Qed.

(** C5, as stated, fails: [Asset] carries the delegate marker and no entity
    lists it as a supertype, so the schema has no delegate entity in the
    sense of the claim; the pass still runs and the operations interface of
    [Asset] loses [create]. *)
Lemma C5_marked_without_sub_is_transformed :
  hasDelegateModel Examples.allDataModels Examples.lonelyModel = false
  /\ exists out,
       processClientTypes 1 Examples.lonelyModel Examples.lonelyFile = Returns out
       /\ out <> fullText Examples.lonelyFile
       /\ map (fun b => map (fun i => map memberName (ifMethods i)) (msInterfaces b))
              (outModules out) = [[["findMany"]]].
Proof.
  split; [reflexivity|]. eexists. split; [reflexivity|].
  split; [discriminate | reflexivity].
Qed.

(** C5, amended.  For every schema in which no declaration carries the
    delegate marker, the written declarations are the input declarations as
    they stand. *)
Theorem C5_copy_without_delegate_marker (fuel : nat) (m : Model) (sf : SourceFile) :
  (forall d, In d (declarations m) -> isDelegateModel d = false) ->
  processClientTypes fuel m sf = Returns (fullText sf).
Proof.
  intros H. unfold processClientTypes. now rewrite (buildDelegateInfo_nil m H).
Qed.

Lemma authOnly_unmarked :
  forall d, In d (declarations Examples.authOnlyModel) -> isDelegateModel d = false.
Proof. intros d [<- | [<- | []]]; reflexivity. Qed.

Lemma C5_copy_without_delegate_marker_witness :
  processClientTypes 0 Examples.authOnlyModel Examples.auxFile
  = Returns (fullText Examples.auxFile).
Proof.
  exact (C5_copy_without_delegate_marker 0 Examples.authOnlyModel Examples.auxFile
           authOnly_unmarked).
Defined.

(** *** A delegate-marked entity without sub models *)

Lemma subModels_nil (m : Model) (i : nat) :
  (forall sub, In (DataModelDecl sub) (declarations m) -> extends sub i = false) ->
  subModels m i = [].
Proof.
  unfold subModels. induction (declarations m) as [|d l IH]; intros H; [reflexivity|].
  simpl. destruct d as [sub|n].
  - rewrite (H sub (or_introl eq_refl)). simpl. apply IH.
    intros s Hs. apply H. now right.
  - simpl. apply IH. intros s Hs. apply H. now right.
Qed.

(** C10.  A delegate-marked entity that no data model lists as a supertype
    has an entry in the index, with no sub models; a schema with a field
    default that reads the current user takes the logical-client path
    whatever its delegates are; and if the discriminator of that entity
    resolves, the rewrite turns the alias [$<Entity>Payload] into the union
    over no sub model, the empty type expression, which is what the
    transformed alias holds whenever its transformation returns. *)
Theorem C10_marked_without_sub_gets_empty_payload
    (getDataModels : Model -> list (nat * DataModel))
    (isDefaultWithAuth : Attribute -> bool)
    (m : Model) (i : nat) (dm : DataModel) (d : string)
    (typeAlias : TypeAliasDeclaration) :
  hasAuthInDefault getDataModels isDefaultWithAuth m = true ->
  distinctDelegateNames m ->
  deref m i = Some (DataModelDecl dm) ->
  isDelegateModel (DataModelDecl dm) = true ->
  (forall sub, In (DataModelDecl sub) (declarations m) -> extends sub i = false) ->
  getDiscriminatorField dm = Some d ->
  taName typeAlias = "$" ++ name dm ++ "Payload" ->
  needsLogicalClient getDataModels isDefaultWithAuth m = true
  /\ In (dm, []) (buildDelegateInfo m)
  /\ (forall source,
        fixDelegatePayloadType typeAlias (buildDelegateInfo m) source = EmptyString)
  /\ (forall fuel out,
        transformTypeAlias fuel m typeAlias (buildDelegateInfo m) = Returns out ->
        tasType out = EmptyString).
Proof.
  intros Hauth Hdist Hi Hdel Hsub Hd Hname.
  pose proof (subModels_nil m i Hsub) as Hnil.
  split; [|split].
  - unfold needsLogicalClient. rewrite Hauth. apply orb_true_r.
  - assert (Hfind : find (fun e => String.eqb (name (fst e)) (name dm))
                         (buildDelegateInfo m) = Some (dm, subModels m i)).
    { apply find_by_name; auto. intros e. apply String.eqb_eq. }
    apply find_some in Hfind as [Hin _]. now rewrite Hnil in Hin.
  - destruct (payload_rewrite m i dm typeAlias Hdist Hi Hdel Hname) as [H _].
    specialize (H d Hd). cbv zeta in H. rewrite Hnil in H. exact H.
Qed.

Lemma lonelyModel_distinct : distinctDelegateNames Examples.lonelyModel.
Proof. concrete_distinct. Qed.

Lemma C10_marked_without_sub_gets_empty_payload_witness :
  needsLogicalClient Examples.allDataModels Examples.defaultWithAuth
    Examples.lonelyModel = true
  /\ In (Examples.Asset, []) (buildDelegateInfo Examples.lonelyModel)
  /\ fixDelegatePayloadType Examples.assetPayload
       (buildDelegateInfo Examples.lonelyModel) (taType Examples.assetPayload)
     = EmptyString.
Proof.
  pose proof (C10_marked_without_sub_gets_empty_payload
                Examples.allDataModels Examples.defaultWithAuth
                Examples.lonelyModel 0 Examples.Asset "kind" Examples.assetPayload
                eq_refl lonelyModel_distinct eq_refl eq_refl) as H.
  assert (Hsub : forall sub,
             In (DataModelDecl sub) (declarations Examples.lonelyModel) ->
             extends sub 0 = false).
  { intros sub [Heq | [Heq | []]]; injection Heq as <-; reflexivity. }
  destruct (H Hsub eq_refl eq_refl) as [H1 [H2 [H3 _]]].
  split; [exact H1 | split; [exact H2 | apply H3]].
Defined.

(** *** Discriminator exclusion *)

(** In the two-level hierarchy the walk from [Mid] yields both
    discriminators (each twice: the caller pushes the shared array onto
    itself), and the create input of [Leaf] loses [kind] and [type]. *)
Example twoLevel_leaf_create_input :
  getDiscriminatorFieldsRecursively 2 Examples.twoLevelModel
    (DataModelDecl Examples.Mid) [] = Returns ["type"; "kind"; "type"; "kind"]
  /\ transformTypeAlias 2 Examples.twoLevelModel Examples.leafCreateInput
       (buildDelegateInfo Examples.twoLevelModel)
     = Returns {| tasName := "LeafCreateInput";
                  tasType := "{" ++ nl ++ "  id?: string" ++ nl ++ "  " ++ nl
                             ++ "  " ++ nl ++ "  url: string" ++ nl ++ "}" |}.
Proof. split; vm_compute; reflexivity. Qed.

(** C2 at a failing input.  [Media] declares [subkind] before its
    discriminator [kind], both of type [string].  The rewrite cuts the first
    occurrence of the text of the [kind] property out of the type
    expression, which lies inside [subkind: string]: the create input of
    [Video] keeps [kind: string] and is left with a member [sub]. *)
Theorem C2_discriminator_kept_on_text_collision :
  getDiscriminatorFieldsRecursively 1 Examples.mediaModel
    (DataModelDecl Examples.Media) [] = Returns ["kind"]
  /\ transformTypeAlias 1 Examples.mediaModel Examples.videoCreateInput
       (buildDelegateInfo Examples.mediaModel)
     = Returns {| tasName := "VideoCreateInput";
                  tasType := Examples.literal
                               ["id?: string"; "sub"; "kind: string"; "url: string"] |}
  /\ occursIn "kind: string" (Examples.literal
                               ["id?: string"; "sub"; "kind: string"; "url: string"])
     = true.
Proof. repeat split; vm_compute; reflexivity. Qed.

(** *** Capability stripping *)

(** The operations interface of a delegate of the index has none of
    [create], [createMany], [upsert] after the transformation. *)
Lemma transformInterface_no_create (iface : InterfaceDeclaration)
    (delegateInfo : DelegateInfo) (e : DataModel * list DataModel) :
  In e delegateInfo ->
  ifName iface = name (fst e) ++ "Delegate" ->
  forall x, In x (ifMethods (transformInterface iface delegateInfo)) ->
            includes ["create"; "createMany"; "upsert"] (memberName x) = false.
Proof.
  intros Hin Hname x Hx. unfold transformInterface in Hx. simpl in Hx.
  assert (Hex : existsb (fun e0 => String.eqb (name (fst e0) ++ "Delegate") (ifName iface))
                        delegateInfo = true).
  { apply existsb_exists. exists e. split; [assumption|].
    rewrite Hname. apply String.eqb_refl. }
  rewrite Hex in Hx. apply filter_In in Hx as [_ Hx].
  now apply negb_true_iff in Hx.
Qed.

(** C3 at two failing inputs.  The pattern for the inputs of delegates is
    written without a group and behind a backslash.  With the delegates
    [Media] and [Account] its first alternative is [Media] alone, so the
    nested upsert input of [User], which is no create/update input of a
    delegate, loses its [create] member; with the single delegate [Widget]
    the pattern starts with the class escape for a non-word character, so a
    nested create input of [Widget] matches nothing and keeps [create] and
    [connectOrCreate]. *)
Theorem C3_delegate_input_pattern_misses :
  delegateCreateUpdateInputPattern (buildDelegateInfo Examples.shopModel)
  = "\Media|Account(Unchecked)?(Create|Update).*Input"
  /\ transformTypeAlias 1 Examples.shopModel Examples.userUpsertWithoutMediaInput
       (buildDelegateInfo Examples.shopModel)
     = Returns {| tasName := "UserUpsertWithoutMediaInput";
                  tasType := "{" ++ nl ++ "  update: UserUpdateWithoutMediaInput" ++ nl
                             ++ "  " ++ nl ++ "  where?: UserWhereInput" ++ nl ++ "}" |}
  /\ delegateCreateUpdateInputPattern (buildDelegateInfo Examples.widgetModel)
     = "\Widget(Unchecked)?(Create|Update).*Input"
  /\ transformTypeAlias 1 Examples.widgetModel Examples.widgetCreateNestedInput
       (buildDelegateInfo Examples.widgetModel)
     = Returns (typeAliasStructure Examples.widgetCreateNestedInput).
Proof. repeat split; vm_compute; reflexivity. Qed.

(** *** Absent targets and re-running *)

Lemma filter_filter {A : Type} (f : A -> bool) (l : list A) :
  filter f (filter f l) = filter f l.
Proof.
  induction l as [|x l IH]; simpl; [reflexivity|].
  destruct (f x) eqn:Hf; simpl; [rewrite Hf; now f_equal | assumption].
Qed.

Lemma filter_nil {A : Type} (f : A -> bool) (l : list A) :
  (forall x, In x l -> f x = false) -> filter f l = [].
Proof.
  induction l as [|x l IH]; intros H; [reflexivity|].
  simpl. rewrite (H x (or_introl eq_refl)). apply IH.
  intros y Hy. apply H. now right.
Qed.

Lemma filter_comm {A : Type} (f g : A -> bool) (l : list A) :
  filter f (filter g l) = filter g (filter f l).
Proof.
  induction l as [|x l IH]; simpl; [reflexivity|].
  destruct (f x) eqn:Hf, (g x) eqn:Hg; simpl; rewrite ?Hf, ?Hg, IH; reflexivity.
Qed.

(** Transforming a transformed interface changes nothing. *)
Lemma transformInterface_idempotent (iface : InterfaceDeclaration)
    (delegateInfo : DelegateInfo) :
  transformInterface (transformInterface iface delegateInfo) delegateInfo
  = transformInterface iface delegateInfo.
Proof.
  unfold transformInterface. simpl.
  destruct (existsb _ delegateInfo); f_equal;
    rewrite ?filter_filter; try reflexivity.
  rewrite (filter_comm (fun x => negb (isAux x))). now rewrite !filter_filter.
Qed.

(** Without a property of the reserved prefix the alias keeps its type. *)
Lemma removeAuxFieldsFromTypeAlias_absent (typeAlias : TypeAliasDeclaration)
    (source : string) :
  findAuxDecls (taProps typeAlias) = [] ->
  removeAuxFieldsFromTypeAlias typeAlias source = source.
Proof. intros H. unfold removeAuxFieldsFromTypeAlias. now rewrite H. Qed.

(** Without a [create], [connectOrCreate] or [upsert] property the rewrite
    of delegate inputs returns its source, whether the name matches or
    not. *)
Lemma removeCreateFromDelegateInput_absent (typeAlias : TypeAliasDeclaration)
    (delegateInfo : DelegateInfo) (source out : string) :
  (forall p, In p (taProps typeAlias) ->
             includes ["create"; "connectOrCreate"; "upsert"] (psName p) = false) ->
  removeCreateFromDelegateInput typeAlias delegateInfo source = Returns out ->
  out = source.
Proof.
  intros Habs H. unfold removeCreateFromDelegateInput in H.
  destruct (compile _); [|discriminate].
  assert (Hnil : filter (fun p => includes ["create"; "connectOrCreate"; "upsert"]
                                           (psName p)) (taProps typeAlias) = []).
  { apply filter_nil. exact Habs. }
  rewrite Hnil in H. simpl in H.
  destruct (test _ _); now injection H as <-.
Qed.

(** Looking up names that the alias does not declare removes nothing. *)
Lemma remove_named_absent (typeAlias : TypeAliasDeclaration) (names : list string)
    (source : string) :
  (forall n, In n names -> findNamedProperty typeAlias n = None) ->
  fold_left (fun src n => match findNamedProperty typeAlias n with
                          | Some d => replaceFirst (psText d) src
                          | None => src
                          end) names source = source.
Proof.
  revert source. induction names as [|n names IH]; intros source H; [reflexivity|].
  simpl. rewrite (H n (or_introl eq_refl)). apply IH.
  intros k Hk. apply H. now right.
Qed.

(** C9 at a failing input.  The transformed create input of [Video] of
    [Examples.mediaModel] still declares [kind]; running
    the rewrites on it (with the properties the parser reports for it) cuts
    [kind: string] out, so the second run changes the output of the first. *)
Theorem C9_second_run_changes_output :
  transformTypeAlias 1 Examples.mediaModel Examples.videoCreateInput
    (buildDelegateInfo Examples.mediaModel)
  = Returns (typeAliasStructure Examples.videoCreateInputAgain)
  /\ transformTypeAlias 1 Examples.mediaModel Examples.videoCreateInputAgain
       (buildDelegateInfo Examples.mediaModel)
     = Returns {| tasName := "VideoCreateInput";
                  tasType := Examples.literal
                               ["id?: string"; "sub"; EmptyString; "url: string"] |}
  /\ Examples.literal ["id?: string"; "sub"; EmptyString; "url: string"]
     <> taType Examples.videoCreateInputAgain.
Proof. repeat split; try (vm_compute; reflexivity). vm_compute. discriminate. Qed.

(** *** Aux-field stripping *)

Lemma stripPrefix_app (x rest : string) : stripPrefix x (x ++ rest) = Some rest.
Proof.
  induction x as [|c x IH]; simpl; [reflexivity|].
  now rewrite Ascii.eqb_refl.
Qed.

Lemma stripPrefix_none (x w rest : string) :
  startsWith x w = false ->
  String.length x <= String.length w ->
  stripPrefix x (w ++ rest) = None.
Proof.
  revert w. induction x as [|a x IH]; intros [|b w] H Hlen; simpl in *;
    try discriminate; try lia.
  destruct (Ascii.eqb a b); [|reflexivity].
  apply IH; [assumption | lia].
Qed.

Lemma replaceFirst_eq (p s : string) :
  replaceFirst p s =
  match stripPrefix p s with
  | Some rest => rest
  | None => match s with
            | EmptyString => EmptyString
            | String c s' => String c (replaceFirst p s')
            end
  end.
Proof. destruct s; reflexivity. Qed.

(** The replacement cuts [x] out where it stands when it does not occur
    earlier. *)
Lemma replaceFirst_at (x done rest : string) :
  Pieces.occursEarly x done = false ->
  replaceFirst x (done ++ x ++ rest) = done ++ rest.
Proof.
  induction done as [|c done IH]; intros H.
  - simpl. rewrite replaceFirst_eq. now rewrite stripPrefix_app.
  - simpl in H. apply orb_false_iff in H as [Hhere Hlater].
    rewrite replaceFirst_eq.
    replace (String c done ++ x ++ rest) with ((String c done ++ x) ++ rest)
      by apply append_assoc.
    rewrite stripPrefix_none.
    + simpl. f_equal. rewrite append_assoc. now apply IH.
    + exact Hhere.
    + rewrite length_append. lia.
Qed.

Lemma removeAuxFieldsFromTypeAlias_removeAll (typeAlias : TypeAliasDeclaration)
    (source : string) :
  removeAuxFieldsFromTypeAlias typeAlias source
  = removeAll (map psText (findAuxDecls (taProps typeAlias))) source.
Proof.
  unfold removeAuxFieldsFromTypeAlias.
  now destruct (findAuxDecls (taProps typeAlias)).
Qed.

(** The interfaces of the rebuilt namespace have no member of the reserved
    prefix. *)
Lemma transformInterface_no_aux (iface : InterfaceDeclaration)
    (delegateInfo : DelegateInfo) (x : MemberStructure) :
  In x (ifProperties (transformInterface iface delegateInfo)
        ++ ifMethods (transformInterface iface delegateInfo))%list ->
  startsWith DELEGATE_AUX_RELATION_PREFIX (memberName x) = false.
Proof.
  unfold transformInterface. simpl. intros H.
  apply in_app_or in H as [H | H].
  - apply filter_In in H as [_ H]. now apply negb_true_iff in H.
  - destruct (existsb _ delegateInfo).
    + apply filter_In in H as [H _]. apply filter_In in H as [_ H].
      now apply negb_true_iff in H.
    + apply filter_In in H as [_ H]. now apply negb_true_iff in H.
Qed.

Lemma mapM_returns {A B : Type} (f : A -> outcome B) (xs : list A) (ys : list B) :
  mapM f xs = Returns ys ->
  forall y, In y ys -> exists x, In x xs /\ f x = Returns y.
Proof.
  revert ys. induction xs as [|x xs IH]; intros ys H y Hy; simpl in H.
  - injection H as <-. contradiction.
  - destruct (f x) as [b| | |] eqn:Hfx; simpl in H; try discriminate.
    destruct (mapM f xs) as [bs| | |]; simpl in H; try discriminate.
    injection H as <-. destruct Hy as [<- | Hy].
    + exists x. split; [now left | assumption].
    + destruct (IH bs eq_refl y Hy) as [x' [Hx' Hfx']].
      exists x'. split; [now right | assumption].
Qed.

Lemma prisma_namespace_interfaces (fuel : nat) (m : Model) (sf : SourceFile)
    (out : SourceFileStructure) :
  buildDelegateInfo m <> [] ->
  processClientTypes fuel m sf = Returns out ->
  forall pm iface,
    In pm (outModules out) -> msName pm = "Prisma" ->
    In iface (msInterfaces pm) ->
    exists iface0, iface = transformInterface iface0 (buildDelegateInfo m).
Proof.
  intros Hne H pm iface Hpm Hname Hiface. unfold processClientTypes in H.
  destruct (buildDelegateInfo m) as [|e info] eqn:Hinfo; [congruence|].
  simpl in H. unfold transformDelegate in H.
  destruct (find _ (sfModules sf)) as [prismaModule|]; [|discriminate].
  unfold transformPrismaModule in H.
  destruct (mapM _ _) as [aliases| | |]; simpl in H; try discriminate.
  injection H as <-. simpl in Hpm.
  apply in_app_or in Hpm as [Hpm | [<- | []]].
  - apply in_map_iff in Hpm as [md [<- Hmd]].
    apply filter_In in Hmd as [_ Hmd]. simpl in Hname.
    rewrite Hname in Hmd. discriminate.
  - simpl in Hiface. apply in_map_iff in Hiface as [iface0 [<- _]].
    now exists iface0.
Qed.

Lemma mediaModel_index_nonempty : buildDelegateInfo Examples.mediaModel <> [].
Proof. discriminate. Qed.

End Facts.

(** ** Further properties of the transformation pass *)

Module Extra.
Import Str Regex Schema Tree Enhancer Reading Conditions Facts.

(** *** Interfaces *)

(** X1.  Transforming an interface that was already transformed with the
    same index changes nothing. *)
Theorem transformInterface_twice (iface : InterfaceDeclaration)
    (delegateInfo : DelegateInfo) :
  transformInterface (transformInterface iface delegateInfo) delegateInfo
  = transformInterface iface delegateInfo.
Proof. exact (transformInterface_idempotent iface delegateInfo). Qed.

Lemma filter_all {A : Type} (f : A -> bool) (l : list A) :
  (forall x, In x l -> f x = true) -> filter f l = l.
Proof.
  induction l as [|x l IH]; intros H; [reflexivity|].
  simpl. rewrite (H x (or_introl eq_refl)). f_equal. apply IH.
  intros y Hy. apply H. now right.
Qed.

(** X2.  The transformation of an interface only removes members: it keeps
    the name, every property and method of the result is one of the input,
    and the properties do not depend on the index. *)
Theorem transformInterface_only_removes (iface : InterfaceDeclaration)
    (delegateInfo : DelegateInfo) :
  ifName (transformInterface iface delegateInfo) = ifName iface
  /\ incl (ifProperties (transformInterface iface delegateInfo)) (ifProperties iface)
  /\ incl (ifMethods (transformInterface iface delegateInfo)) (ifMethods iface)
  /\ ifProperties (transformInterface iface delegateInfo)
     = ifProperties (transformInterface iface []).
Proof.
  unfold transformInterface. simpl. repeat split.
  - intros x Hx. now apply filter_In in Hx.
  - intros x Hx. destruct (existsb _ delegateInfo).
    + apply filter_In in Hx as [Hx _]. now apply filter_In in Hx.
    + now apply filter_In in Hx.
Qed.

(** X3.  An interface without members of the reserved prefix that is not
    the operations interface of a delegate of the index is left as it is. *)
Theorem transformInterface_untouched (iface : InterfaceDeclaration)
    (delegateInfo : DelegateInfo) :
  (forall x, In x (ifProperties iface ++ ifMethods iface)%list -> isAux x = false) ->
  (forall e, In e delegateInfo -> name (fst e) ++ "Delegate" <> ifName iface) ->
  transformInterface iface delegateInfo = iface.
Proof.
  intros Haux Hname. unfold transformInterface.
  assert (Hex : existsb (fun e => String.eqb (name (fst e) ++ "Delegate") (ifName iface))
                        delegateInfo = false).
  { apply not_true_is_false. intros H. apply existsb_exists in H as [e [He Heq]].
    apply String.eqb_eq in Heq. exact (Hname e He Heq). }
  rewrite Hex. destruct iface as [n ps ms]. simpl in *. f_equal.
  - apply filter_all. intros x Hx. rewrite Haux; [reflexivity|].
    apply in_or_app. now left.
  - apply filter_all. intros x Hx. rewrite Haux; [reflexivity|].
    apply in_or_app. now right.
Qed.

Lemma transformInterface_untouched_witness :
  transformInterface Examples.assetDelegate (buildDelegateInfo Examples.mediaModel)
  = Examples.assetDelegate.
Proof.
  apply transformInterface_untouched.
  - intros x [<- | [<- | []]]; reflexivity.
  - intros e [<- | []]. discriminate.
Defined.

(** X4.  The operations interface of a delegate of the index has none of
    the methods [create], [createMany], [upsert] after the transformation. *)
Theorem delegate_interface_cannot_create (iface : InterfaceDeclaration)
    (delegateInfo : DelegateInfo) (e : DataModel * list DataModel) :
  In e delegateInfo ->
  ifName iface = name (fst e) ++ "Delegate" ->
  forall x, In x (ifMethods (transformInterface iface delegateInfo)) ->
            memberName x <> "create" /\ memberName x <> "createMany"
            /\ memberName x <> "upsert".
Proof.
  intros Hin Hname x Hx. unfold transformInterface in Hx. simpl in Hx.
  assert (Hex : existsb (fun e0 => String.eqb (name (fst e0) ++ "Delegate") (ifName iface))
                        delegateInfo = true).
  { apply existsb_exists. exists e. split; [assumption|].
    rewrite Hname. apply String.eqb_refl. }
  rewrite Hex in Hx. apply filter_In in Hx as [_ Hx].
  apply negb_true_iff in Hx. unfold includes in Hx. simpl in Hx.
  repeat split; intros Heq; rewrite Heq in Hx; discriminate.
Qed.

Lemma delegate_interface_cannot_create_witness :
  memberName (Examples.method "findMany") <> "create"
  /\ memberName (Examples.method "findMany") <> "createMany"
  /\ memberName (Examples.method "findMany") <> "upsert".
Proof.
  apply (delegate_interface_cannot_create Examples.assetDelegate
           (buildDelegateInfo Examples.lonelyModel) (Examples.Asset, [])).
  - left. reflexivity.
  - reflexivity.
  - left. reflexivity.
Defined.

(** *** The subtractive rewrites only take text away *)

Lemma stripPrefix_length (p s rest : string) :
  stripPrefix p s = Some rest ->
  String.length s = String.length p + String.length rest.
Proof.
  revert s. induction p as [|a p IH]; intros [|b s] H; simpl in H;
    try discriminate; try (injection H as <-; reflexivity).
  destruct (Ascii.eqb a b); [|discriminate].
  simpl. now rewrite (IH s H).
Qed.

Lemma replaceFirst_length (p s : string) :
  String.length (replaceFirst p s) <= String.length s.
Proof.
  induction s as [|c s IH]; rewrite replaceFirst_eq.
  - destruct (stripPrefix p EmptyString) eqn:H; [|reflexivity].
    apply stripPrefix_length in H. lia.
  - destruct (stripPrefix p (String c s)) eqn:H.
    + apply stripPrefix_length in H. lia.
    + simpl. lia.
Qed.

Lemma fold_left_length {A : Type} (f : string -> A -> string) (l : list A) :
  (forall src x, String.length (f src x) <= String.length src) ->
  forall source, String.length (fold_left f l source) <= String.length source.
Proof.
  intros Hf. induction l as [|x l IH]; intros source; simpl; [lia|].
  specialize (IH (f source x)). specialize (Hf source x). lia.
Qed.

Lemma removeAll_length (texts : list string) (source : string) :
  String.length (removeAll texts source) <= String.length source.
Proof.
  unfold removeAll. apply fold_left_length. intros src t. apply replaceFirst_length.
Qed.

Lemma remove_named_length (typeAlias : TypeAliasDeclaration) (names : list string)
    (source : string) :
  String.length
    (fold_left (fun src n => match findNamedProperty typeAlias n with
                             | Some d => replaceFirst (psText d) src
                             | None => src
                             end) names source)
  <= String.length source.
Proof.
  apply fold_left_length. intros src n.
  destruct (findNamedProperty typeAlias n); [apply replaceFirst_length | lia].
Qed.

Lemma removeAux_length (typeAlias : TypeAliasDeclaration) (source : string) :
  String.length (removeAuxFieldsFromTypeAlias typeAlias source) <= String.length source.
Proof.
  rewrite removeAuxFieldsFromTypeAlias_removeAll. apply removeAll_length.
Qed.

Lemma removeDiscriminator_length (fuel : nat) (m : Model)
    (typeAlias : TypeAliasDeclaration) (delegateInfo : DelegateInfo)
    (source out : string) :
  removeDiscriminatorFromConcreteInput fuel m typeAlias delegateInfo source = Returns out ->
  String.length out <= String.length source.
Proof.
  unfold removeDiscriminatorFromConcreteInput. intros H.
  destruct (compile _); [|discriminate].
  destruct (exec _ _); [|injection H as <-; lia].
  destruct (find _ delegateInfo); [|injection H as <-; lia].
  destruct (getDiscriminatorFieldsRecursively _ _ _ _); simpl in H; try discriminate.
  injection H as <-. apply remove_named_length.
Qed.

Lemma removeCreate_length (typeAlias : TypeAliasDeclaration)
    (delegateInfo : DelegateInfo) (source out : string) :
  removeCreateFromDelegateInput typeAlias delegateInfo source = Returns out ->
  String.length out <= String.length source.
Proof.
  unfold removeCreateFromDelegateInput. intros H.
  destruct (compile _); [|discriminate].
  destruct (test _ _); injection H as <-; [apply removeAll_length | lia].
Qed.

Lemma removeDelegateFields_length (m : Model) (typeAlias : TypeAliasDeclaration)
    (delegateInfo : DelegateInfo) (source out : string) :
  removeDelegateFieldsFromNestedMutationInput m typeAlias delegateInfo source
  = Returns out ->
  String.length out <= String.length source.
Proof.
  unfold removeDelegateFieldsFromNestedMutationInput. intros H.
  destruct (compile _); [|discriminate].
  destruct (exec _ _) as [caps|]; [|injection H as <-; lia].
  set (relationFieldName := nth_error _ 1) in H.
  set (source1 := match match relationFieldName with
                        | Some n => findNamedProperty typeAlias n
                        | None => None
                        end with
                  | Some d => replaceFirst (psText d) source
                  | None => source
                  end) in H.
  assert (H1 : String.length source1 <= String.length source).
  { unfold source1. destruct relationFieldName as [n|]; [|lia].
    destruct (findNamedProperty typeAlias n); [apply replaceFirst_length | lia]. }
  destruct (find _ (declarations m)) as [[rm|]|];
    try (injection H as <-; exact H1).
  destruct (find _ (fields rm)) as [relationField|];
    [|injection H as <-; exact H1].
  destruct (getAttribute _ _) as [relAttr|]; [|injection H as <-; exact H1].
  destruct (getAttributeArg relAttr "fields") as [[| items | |]|]; simpl in H;
    try (injection H as <-; exact H1).
  destruct (refTexts items) as [fkFields| | |]; simpl in H; try discriminate.
  injection H as <-.
  pose proof (remove_named_length typeAlias fkFields source1). lia.
Qed.

(** X5.  Each of the four subtractive rewrites of a type alias returns a
    text that is at most as long as the text it was given. *)
Theorem subtractive_rewrites_never_lengthen (fuel : nat) (m : Model)
    (typeAlias : TypeAliasDeclaration) (delegateInfo : DelegateInfo)
    (source : string) :
  String.length (removeAuxFieldsFromTypeAlias typeAlias source) <= String.length source
  /\ (forall out,
        removeDiscriminatorFromConcreteInput fuel m typeAlias delegateInfo source
        = Returns out -> String.length out <= String.length source)
  /\ (forall out,
        removeCreateFromDelegateInput typeAlias delegateInfo source = Returns out ->
        String.length out <= String.length source)
  /\ (forall out,
        removeDelegateFieldsFromNestedMutationInput m typeAlias delegateInfo source
        = Returns out -> String.length out <= String.length source).
Proof.
  split; [apply removeAux_length|].
  split; [intros out; apply removeDiscriminator_length|].
  split; [intros out; apply removeCreate_length|].
  intros out; apply removeDelegateFields_length.
Qed.

(** *** The payload rewrite and the whole alias *)

Lemma fixDelegatePayloadType_other (typeAlias : TypeAliasDeclaration)
    (delegateInfo : DelegateInfo) (source : string) :
  (forall e, In e delegateInfo ->
             "$" ++ name (fst e) ++ "Payload" <> taName typeAlias) ->
  fixDelegatePayloadType typeAlias delegateInfo source = source.
Proof.
  intros H. unfold fixDelegatePayloadType.
  destruct (find _ delegateInfo) as [e|] eqn:Hfind; [|reflexivity].
  apply find_some in Hfind as [Hin Heq]. apply String.eqb_eq in Heq.
  now destruct (H e Hin).
Qed.

(** X6.  An alias that is not named [$<Delegate>Payload] for a delegate of
    the index keeps whatever type text reaches the payload rewrite. *)
Theorem payload_rewrite_leaves_other_aliases (typeAlias : TypeAliasDeclaration)
    (delegateInfo : DelegateInfo) (source : string) :
  (forall e, In e delegateInfo ->
             "$" ++ name (fst e) ++ "Payload" <> taName typeAlias) ->
  fixDelegatePayloadType typeAlias delegateInfo source = source.
Proof. exact (fixDelegatePayloadType_other typeAlias delegateInfo source). Qed.

Lemma payload_rewrite_leaves_other_aliases_witness :
  fixDelegatePayloadType Examples.videoCreateInput
    (buildDelegateInfo Examples.mediaModel) (taType Examples.videoCreateInput)
  = taType Examples.videoCreateInput.
Proof.
  apply payload_rewrite_leaves_other_aliases.
  intros e [<- | []]. discriminate.
Defined.

Lemma transformTypeAlias_name (fuel : nat) (m : Model)
    (typeAlias : TypeAliasDeclaration) (delegateInfo : DelegateInfo)
    (out : TypeAliasStructure) :
  transformTypeAlias fuel m typeAlias delegateInfo = Returns out ->
  tasName out = taName typeAlias.
Proof.
  unfold transformTypeAlias. intros H.
  destruct (removeDiscriminatorFromConcreteInput _ _ _ _ _); simpl in H; try discriminate.
  destruct (removeCreateFromDelegateInput _ _ _); simpl in H; try discriminate.
  destruct (removeDelegateFieldsFromNestedMutationInput _ _ _ _); simpl in H;
    try discriminate.
  now injection H as <-.
Qed.

(** X7.  A transformed alias keeps its name, and unless it is the payload
    alias of a delegate of the index its type text is at most as long as
    before: the pass only takes text away from it. *)
Theorem transformTypeAlias_keeps_name_and_shrinks (fuel : nat) (m : Model)
    (typeAlias : TypeAliasDeclaration) (delegateInfo : DelegateInfo)
    (out : TypeAliasStructure) :
  transformTypeAlias fuel m typeAlias delegateInfo = Returns out ->
  tasName out = taName typeAlias
  /\ ((forall e, In e delegateInfo ->
                 "$" ++ name (fst e) ++ "Payload" <> taName typeAlias) ->
      String.length (tasType out) <= String.length (taType typeAlias)).
Proof.
  unfold transformTypeAlias. intros H.
  destruct (removeDiscriminatorFromConcreteInput _ _ _ _ _) as [s1| | |] eqn:H1;
    simpl in H; try discriminate.
  destruct (removeCreateFromDelegateInput _ _ s1) as [s2| | |] eqn:H2;
    simpl in H; try discriminate.
  destruct (removeDelegateFieldsFromNestedMutationInput _ _ _ s2) as [s3| | |] eqn:H3;
    simpl in H; try discriminate.
  injection H as <-. simpl. split; [reflexivity|].
  intros Hother. rewrite (fixDelegatePayloadType_other _ _ _ Hother).
  apply removeDiscriminator_length in H1. apply removeCreate_length in H2.
  apply removeDelegateFields_length in H3.
  pose proof (removeAux_length typeAlias (taType typeAlias)). lia.
Qed.

Lemma transformTypeAlias_keeps_name_and_shrinks_witness :
  tasName (typeAliasStructure Examples.videoCreateInputAgain) = "VideoCreateInput".
Proof.
  exact (proj1 (transformTypeAlias_keeps_name_and_shrinks 1 Examples.mediaModel
                  Examples.videoCreateInput (buildDelegateInfo Examples.mediaModel)
                  (typeAliasStructure Examples.videoCreateInputAgain) eq_refl)).
Defined.

(** *** Variable statements *)

(** X8.  The transformation of a variable statement keeps the number, the
    order and the names of its declarations, leaves a declaration without a
    type annotation without one, never lengthens an annotation, and returns
    the statement as it stands when it has no property of the reserved
    prefix. *)
Theorem transformVariableStatement_shape (variable : VariableStatement) :
  map vdName (vssDeclarations (transformVariableStatement variable))
  = map vdName (vsDeclarations variable)
  /\ Forall2 (fun before after =>
                match vdType before, vdType after with
                | Some s, Some s' => String.length s' <= String.length s
                | None, None => True
                | _, _ => False
                end)
             (vsDeclarations variable)
             (vssDeclarations (transformVariableStatement variable))
  /\ (findAuxDecls (vsProps variable) = [] ->
      transformVariableStatement variable = variableStructure variable).
Proof.
  unfold transformVariableStatement.
  split; [|split].
  - destruct (0 <? _); simpl; [|reflexivity].
    rewrite map_map. reflexivity.
  - destruct (0 <? _); simpl.
    + induction (vsDeclarations variable) as [|d l IH]; simpl; constructor; auto.
      simpl. destruct (vdType d); [apply removeAll_length | exact I].
    + induction (vsDeclarations variable) as [|d l IH]; constructor; auto.
      destruct (vdType d); [lia | exact I].
  - intros ->. reflexivity.
Qed.

(** *** The hierarchy index *)

Lemma index_delegates_from (m : Model) (l : list Declaration) (k : nat) :
  map fst (flat_map (delegateEntry m) (combine (seq k (List.length l)) l))
  = markedModels l.
Proof.
  revert k. induction l as [|d l IH]; intros k; [reflexivity|].
  simpl. rewrite map_app, IH. unfold delegateEntry at 1. simpl.
  destruct d as [dm|n]; [|reflexivity].
  now destruct (isDelegateModel (DataModelDecl dm)).
Qed.

(** X9.  The index has one entry per delegate-marked data model, in the
    order of the declarations, whether or not the model has sub models. *)
Theorem index_lists_marked_models (m : Model) :
  map fst (buildDelegateInfo m) = markedModels (declarations m).
Proof. apply index_delegates_from. Qed.

Lemma in_subModels (m : Model) (i : nat) (sub : DataModel) :
  In sub (subModels m i)
  <-> In (DataModelDecl sub) (declarations m) /\ extends sub i = true.
Proof.
  unfold subModels. rewrite in_flat_map. split.
  - intros [d [Hd Hin]]. destruct d as [dm|n]; [|contradiction].
    destruct (extends dm i) eqn:He; [|contradiction].
    destruct Hin as [<- | []]. now split.
  - intros [Hd He]. exists (DataModelDecl sub). split; [assumption|].
    rewrite He. now left.
Qed.

Lemma entry_in_index (m : Model) (i : nat) (dm : DataModel) :
  deref m i = Some (DataModelDecl dm) ->
  isDelegateModel (DataModelDecl dm) = true ->
  In (dm, subModels m i) (buildDelegateInfo m).
Proof.
  intros Hi Hdel. unfold buildDelegateInfo. apply in_flat_map.
  exists (i, DataModelDecl dm). split; [now apply in_indexed|].
  unfold delegateEntry. simpl. simpl in Hdel. rewrite Hdel. now left.
Qed.

Lemma index_entry (m : Model) (e : DataModel * list DataModel) :
  In e (buildDelegateInfo m) ->
  exists i,
    deref m i = Some (DataModelDecl (fst e))
    /\ isDelegateModel (DataModelDecl (fst e)) = true
    /\ snd e = subModels m i.
Proof.
  unfold buildDelegateInfo. rewrite in_flat_map. intros [[j d] [Hjd Hin]].
  apply in_indexed in Hjd. unfold delegateEntry in Hin. simpl in Hin.
  destruct d as [dm|n]; [|contradiction].
  destruct (isDelegateModel (DataModelDecl dm)) eqn:Hdel; [|contradiction].
  destruct Hin as [<- | []]. exists j. simpl. auto.
Qed.

(** X10.  Every entry of the index pairs a delegate-marked data model of
    the schema with exactly the data models that list it among their
    supertypes. *)
Theorem index_entry_sound (m : Model) (e : DataModel * list DataModel) :
  In e (buildDelegateInfo m) ->
  exists i,
    deref m i = Some (DataModelDecl (fst e))
    /\ isDelegateModel (DataModelDecl (fst e)) = true
    /\ forall sub,
         In sub (snd e)
         <-> In (DataModelDecl sub) (declarations m) /\ extends sub i = true.
Proof.
  intros He. destruct (index_entry m e He) as [i [Hi [Hdel Hsub]]].
  exists i. split; [assumption | split; [assumption|]].
  intros sub. rewrite Hsub. apply in_subModels.
Qed.

Lemma index_entry_sound_witness :
  exists i,
    deref Examples.mediaModel i = Some (DataModelDecl Examples.Media)
    /\ isDelegateModel (DataModelDecl Examples.Media) = true
    /\ forall sub,
         In sub [Examples.Video; Examples.Document]
         <-> In (DataModelDecl sub) (declarations Examples.mediaModel)
             /\ extends sub i = true.
Proof.
  exact (index_entry_sound Examples.mediaModel
           (Examples.Media, [Examples.Video; Examples.Document])
           (or_introl eq_refl)).
Defined.

(** X11.  The index is empty exactly when no declaration of the schema
    carries the delegate marker. *)
Theorem index_empty_iff (m : Model) :
  buildDelegateInfo m = []
  <-> forall d, In d (declarations m) -> isDelegateModel d = false.
Proof.
  split; [|apply buildDelegateInfo_nil].
  intros Hnil d Hd. destruct (isDelegateModel d) eqn:Hdel; [|reflexivity].
  apply In_nth_error in Hd as [i Hi].
  destruct d as [dm|n]; [|discriminate].
  pose proof (entry_in_index m i dm Hi Hdel) as Hin.
  rewrite Hnil in Hin. contradiction.
Qed.

(** *** The discriminator-chain walk *)

Section Walk.

Variable m : Model.

Lemma walkSupers_absorbs (fuel : nat) (supers : list (option nat))
    (acc : outcome (list string)) :
  (forall r, acc <> Returns r) -> walkSupers fuel m supers acc = acc.
Proof.
  unfold walkSupers. revert acc.
  induction supers as [|s supers IH]; intros acc H; [reflexivity|].
  simpl.
  assert (Hstep : forall (f : list string -> outcome (list string)), bind acc f = acc)
    by (intros f; destruct acc; [now destruct (H a) | reflexivity..]).
  rewrite Hstep. now apply IH.
Qed.

(** A property of the shared array that every recursive call followed by the
    push establishes again holds of what the loop returns. *)
Lemma walkSupers_invariant (fuel : nat) (P : list string -> Prop)
    (supers : list (option nat)) :
  (forall i base cur r0,
     In (Some i) supers -> deref m i = Some base -> P cur ->
     getDiscriminatorFieldsRecursively fuel m base cur = Returns r0 ->
     P (r0 ++ r0)%list) ->
  forall cur r,
    P cur -> walkSupers fuel m supers (Returns cur) = Returns r -> P r.
Proof.
  unfold walkSupers.
  induction supers as [|s supers IH]; intros Hstep cur r Hcur H; simpl in H.
  - now injection H as <-.
  - assert (Hstep' : forall i base cur r0,
               In (Some i) supers -> deref m i = Some base -> P cur ->
               getDiscriminatorFieldsRecursively fuel m base cur = Returns r0 ->
               P (r0 ++ r0)%list)
      by (intros i base c r0 Hin; apply Hstep; now right).
    destruct s as [i|]; [|now apply (IH Hstep' cur)].
    destruct (deref m i) as [base|] eqn:Hi; [|now apply (IH Hstep' cur)].
    destruct (getDiscriminatorFieldsRecursively fuel m base cur) as [r0| | |] eqn:Hr;
      simpl in H.
    + apply (IH Hstep' (r0 ++ r0)%list r); [|assumption].
      now apply (Hstep i base cur r0 (or_introl eq_refl)).
    + fold (walkSupers fuel m supers (Throws what)) in H.
      rewrite walkSupers_absorbs in H; [discriminate | intros; discriminate].
    + fold (walkSupers fuel m supers (@OutOfFuel (list string))) in H.
      rewrite walkSupers_absorbs in H; [discriminate | intros; discriminate].
    + fold (walkSupers fuel m supers (@OutOfFragment (list string))) in H.
      rewrite walkSupers_absorbs in H; [discriminate | intros; discriminate].
Qed.

Lemma walk_unfold (fuel : nat) (dm : DataModel) (result : list string) :
  isDelegateModel (DataModelDecl dm) = true ->
  getDiscriminatorFieldsRecursively (S fuel) m (DataModelDecl dm) result
  = walkSupers fuel m (superTypes dm)
      (Returns match getDiscriminatorField dm with
               | Some discriminator => (result ++ [discriminator])%list
               | None => result
               end).
Proof. intros H. cbn [getDiscriminatorFieldsRecursively]. now rewrite H. Qed.

Lemma walk_other (fuel : nat) (d : Declaration) (result : list string) :
  isDelegateModel d = false ->
  getDiscriminatorFieldsRecursively (S fuel) m d result = Returns result.
Proof.
  intros H. cbn [getDiscriminatorFieldsRecursively].
  destruct d; [now rewrite H | reflexivity].
Qed.

Lemma walk_extends (fuel : nat) :
  forall d result r,
    getDiscriminatorFieldsRecursively fuel m d result = Returns r ->
    exists more, r = (result ++ more)%list.
Proof.
  induction fuel as [|fuel IH]; intros d result r H; [discriminate|].
  destruct (isDelegateModel d) eqn:Hdel.
  - destruct d as [dm|n]; [|discriminate].
    rewrite (walk_unfold fuel dm result Hdel) in H.
    revert H. apply (walkSupers_invariant fuel (fun x => exists more, x = (result ++ more)%list)).
    + intros i base cur r0 _ _ [more ->] Hr.
      apply IH in Hr as [more' ->].
      exists (more ++ more' ++ (result ++ more) ++ more')%list.
      now rewrite <- !app_assoc.
    + destruct (getDiscriminatorField dm) as [x|]; [now exists [x]|].
      exists []. now rewrite app_nil_r.
  - rewrite (walk_other fuel d result Hdel) in H. injection H as <-.
    exists []. now rewrite app_nil_r.
Qed.

Lemma walk_collects (fuel : nat) :
  forall d result r,
    (forall dm, d = DataModelDecl dm -> In d (declarations m)) ->
    getDiscriminatorFieldsRecursively fuel m d result = Returns r ->
    forall x, In x r -> In x result \/ declaredDiscriminator m x.
Proof.
  induction fuel as [|fuel IH]; intros d result r Hd H; [discriminate|].
  destruct (isDelegateModel d) eqn:Hdel.
  - destruct d as [dm|n]; [|discriminate].
    rewrite (walk_unfold fuel dm result Hdel) in H.
    revert H.
    apply (walkSupers_invariant fuel
             (fun l => forall x, In x l -> In x result \/ declaredDiscriminator m x)).
    + intros i base cur r0 _ Hi Hcur Hr x Hx.
      assert (Hx' : In x r0) by (apply in_app_or in Hx; tauto).
      assert (Hbase : forall dm', base = DataModelDecl dm' -> In base (declarations m))
        by (intros dm' _; unfold deref in Hi; now apply nth_error_In in Hi).
      destruct (IH base cur r0 Hbase Hr x Hx') as [Hin | HQ]; [now apply Hcur | now right].
    + intros x Hx. destruct (getDiscriminatorField dm) as [disc|] eqn:Hdisc;
        [|now left].
      apply in_app_or in Hx as [Hx | [<- | []]]; [now left|].
      right. exists dm. split; [now apply (Hd dm) | now split].
  - rewrite (walk_other fuel d result Hdel) in H. injection H as <-.
    intros x Hx. now left.
Qed.

Lemma walk_more_fuel (fuel : nat) :
  forall d result r,
    getDiscriminatorFieldsRecursively fuel m d result = Returns r ->
    getDiscriminatorFieldsRecursively (S fuel) m d result = Returns r.
Proof.
  induction fuel as [|fuel IH]; intros d result r H; [discriminate|].
  destruct (isDelegateModel d) eqn:Hdel.
  - destruct d as [dm|n]; [|discriminate].
    rewrite (walk_unfold fuel dm result Hdel) in H.
    rewrite (walk_unfold (S fuel) dm result Hdel).
    revert H. generalize (match getDiscriminatorField dm with
                          | Some discriminator => (result ++ [discriminator])%list
                          | None => result
                          end) as cur.
    unfold walkSupers.
    induction (superTypes dm) as [|s supers IHs]; intros cur H; [exact H|].
    simpl in *.
    destruct s as [i|]; [|now apply IHs].
    destruct (deref m i) as [base|]; [|now apply IHs].
    destruct (getDiscriminatorFieldsRecursively fuel m base cur) as [r0| | |] eqn:Hr;
      simpl in H.
    + rewrite (IH base cur r0 Hr). simpl. now apply IHs.
    + fold (walkSupers fuel m supers (Throws what)) in H.
      rewrite walkSupers_absorbs in H; [discriminate | intros; discriminate].
    + fold (walkSupers fuel m supers (@OutOfFuel (list string))) in H.
      rewrite walkSupers_absorbs in H; [discriminate | intros; discriminate].
    + fold (walkSupers fuel m supers (@OutOfFragment (list string))) in H.
      rewrite walkSupers_absorbs in H; [discriminate | intros; discriminate].
  - rewrite (walk_other fuel d result Hdel) in H.
    now rewrite (walk_other (S fuel) d result Hdel).
Qed.

End Walk.

(** X12.  The walk only appends: the array it returns starts with the
    array it was given. *)
Theorem walk_only_appends (fuel : nat) (m : Model) (d : Declaration)
    (result r : list string) :
  getDiscriminatorFieldsRecursively fuel m d result = Returns r ->
  exists more, r = (result ++ more)%list.
Proof. apply walk_extends. Qed.

Lemma walk_only_appends_witness :
  exists more, ["type"; "kind"; "type"; "kind"] = ([] ++ more)%list.
Proof.
  exact (walk_only_appends 2 Examples.twoLevelModel (DataModelDecl Examples.Mid)
           [] ["type"; "kind"; "type"; "kind"] eq_refl).
Defined.

(** X13.  Started from a declaration of the schema, the walk collects
    nothing but discriminators of delegate-marked data models of the schema:
    every element it returns was in the array it was given or is such a
    discriminator. *)
Theorem walk_collects_declared_discriminators (fuel : nat) (m : Model)
    (d : Declaration) (result r : list string) :
  In d (declarations m) ->
  getDiscriminatorFieldsRecursively fuel m d result = Returns r ->
  forall x, In x r -> In x result \/ declaredDiscriminator m x.
Proof. intros Hd. apply walk_collects. intros dm _. exact Hd. Qed.

Lemma walk_collects_declared_discriminators_witness :
  In "kind" [] \/ declaredDiscriminator Examples.twoLevelModel "kind".
Proof.
  apply (walk_collects_declared_discriminators 2 Examples.twoLevelModel
           (DataModelDecl Examples.Mid) [] ["type"; "kind"; "type"; "kind"]).
  - right. left. reflexivity.
  - reflexivity.
  - right. left. reflexivity.
Defined.

Lemma walkSupers_squares (fuel : nat) (m : Model) (supers : list (option nat)) :
  forall acc,
    squared acc \/ (exists s, In s supers /\ resolves m s) ->
    squared (walkSupers fuel m supers acc).
Proof.
  unfold walkSupers.
  induction supers as [|s supers IH]; intros acc H.
  - destruct H as [H | [s [[] _]]]. exact H.
  - simpl. apply IH.
    destruct acc as [cur| | |]; simpl;
      try (left; intros r Hr; discriminate).
    destruct s as [i|].
    + destruct (deref m i) as [base|] eqn:Hi.
      * left. intros r Hr.
        destruct (getDiscriminatorFieldsRecursively fuel m base cur) as [r0| | |];
          simpl in Hr; try discriminate.
        injection Hr as <-. now exists r0.
      * destruct H as [H | [s [[<- | Hin] [j [base [Hs Hj]]]]]].
        -- now left.
        -- injection Hs as <-. congruence.
        -- right. exists s. split; [assumption | now exists j, base].
    + destruct H as [H | [s [[<- | Hin] [j [base [Hs Hj]]]]]].
      * now left.
      * discriminate.
      * right. exists s. split; [assumption | now exists j, base].
Qed.

Lemma walkSupers_extends (fuel : nat) (m : Model) (supers : list (option nat))
    (cur r : list string) :
  walkSupers fuel m supers (Returns cur) = Returns r ->
  exists more, r = (cur ++ more)%list.
Proof.
  apply (walkSupers_invariant m fuel (fun x => exists more, x = (cur ++ more)%list)).
  - intros i base c r0 _ _ [more ->] Hr.
    apply walk_extends in Hr as [more' ->].
    exists (more ++ more' ++ (cur ++ more) ++ more')%list.
    now rewrite <- !app_assoc.
  - exists []. now rewrite app_nil_r.
Qed.

(** X14.  Because the caller pushes the shared array onto itself after each
    recursive call, the walk from a delegate-marked entity with a supertype
    reference that resolves returns some array twice in a row; the
    discriminator of the entity is in that array, so it is returned at least
    twice. *)
Theorem walk_returns_chain_twice (fuel : nat) (m : Model) (dm : DataModel)
    (result r : list string) :
  isDelegateModel (DataModelDecl dm) = true ->
  (exists s, In s (superTypes dm) /\ resolves m s) ->
  getDiscriminatorFieldsRecursively (S fuel) m (DataModelDecl dm) result = Returns r ->
  exists half,
    r = (half ++ half)%list
    /\ forall x, getDiscriminatorField dm = Some x -> In x half.
Proof.
  intros Hdel Hres H. rewrite (walk_unfold m fuel dm result Hdel) in H.
  destruct (walkSupers_squares fuel m (superTypes dm) _ (or_intror Hres) r H)
    as [half Hhalf].
  exists half. split; [assumption|].
  intros x Hx. rewrite Hx in H.
  apply walkSupers_extends in H as [more Hmore].
  assert (Hin : In x r).
  { rewrite Hmore. apply in_or_app. left. apply in_or_app. right. now left. }
  rewrite Hhalf in Hin. apply in_app_or in Hin. tauto.
Qed.

Lemma walk_returns_chain_twice_witness :
  exists half,
    ["type"; "kind"; "type"; "kind"] = (half ++ half)%list
    /\ forall x, getDiscriminatorField Examples.Mid = Some x -> In x half.
Proof.
  apply (walk_returns_chain_twice 1 Examples.twoLevelModel Examples.Mid []).
  - reflexivity.
  - exists (Some 0). split; [now left|].
    exists 0, (DataModelDecl Examples.Base). split; reflexivity.
  - reflexivity.
Defined.

(** *** The rebuilt file *)

Lemma find_none_all {A : Type} (f : A -> bool) (l : list A) :
  (forall x, In x l -> f x = false) -> find f l = None.
Proof.
  induction l as [|x l IH]; intros H; [reflexivity|].
  simpl. rewrite (H x (or_introl eq_refl)). apply IH.
  intros y Hy. apply H. now right.
Qed.

(** X15.  When the index has an entry and the client declarations have no
    namespace named [Prisma], the pass throws. *)
Theorem pass_needs_prisma_namespace (fuel : nat) (m : Model) (sf : SourceFile) :
  buildDelegateInfo m <> [] ->
  (forall md, In md (sfModules sf) -> modName md <> "Prisma") ->
  processClientTypes fuel m sf = Throws "Prisma".
Proof.
  intros Hne Hno. unfold processClientTypes.
  destruct (buildDelegateInfo m) as [|e info]; [congruence|].
  simpl. unfold transformDelegate. rewrite find_none_all; [reflexivity|].
  intros md Hmd. apply String.eqb_neq. now apply Hno.
Qed.

Lemma pass_needs_prisma_namespace_witness :
  processClientTypes 1 Examples.mediaModel
    {| sfImports := []; sfImportEquals := []; sfExportAssignments := [];
       sfTypeAliases := [Examples.videoCreateInput]; sfClasses := [];
       sfVariables := []; sfModules := []; sfOthers := [] |}
  = Throws "Prisma".
Proof.
  apply pass_needs_prisma_namespace; [discriminate | intros md []].
Defined.

Lemma filter_map_modules (l : list ModuleDeclaration) :
  filter (fun x => negb (String.eqb (msName x) "Prisma")) (map moduleStructure l)
  = map moduleStructure (filter (fun n => negb (String.eqb (modName n) "Prisma")) l).
Proof.
  induction l as [|x l IH]; [reflexivity|].
  simpl. destruct (negb (String.eqb (modName x) "Prisma")); simpl; now rewrite IH.
Qed.

(** X16.  Whenever the file is written, the imports, import-equals and
    export assignments, the top-level type aliases, classes and variables,
    and the namespaces other than [Prisma], in their order, are written as
    they were read, untransformed.  The top-level statements of the other
    categories (interfaces, functions, enums) are written only when the
    index is empty: the pass does not copy them. *)
Theorem outside_namespace_is_copied (fuel : nat) (m : Model) (sf : SourceFile)
    (out : SourceFileStructure) :
  processClientTypes fuel m sf = Returns out ->
  outImports out = sfImports sf
  /\ outImportEquals out = sfImportEquals sf
  /\ outExportAssignments out = sfExportAssignments sf
  /\ outTypeAliases out = map typeAliasStructure (sfTypeAliases sf)
  /\ outClasses out = sfClasses sf
  /\ outVariables out = map variableStructure (sfVariables sf)
  /\ filter (fun x => negb (String.eqb (msName x) "Prisma")) (outModules out)
     = map moduleStructure
         (filter (fun n => negb (String.eqb (modName n) "Prisma")) (sfModules sf))
  /\ outOthers out = match buildDelegateInfo m with
                     | [] => sfOthers sf
                     | _ :: _ => []
                     end.
Proof.
  unfold processClientTypes. intros H.
  destruct (buildDelegateInfo m) as [|e info]; simpl in H.
  - injection H as <-. simpl. repeat split. apply filter_map_modules.
  - unfold transformDelegate in H.
    destruct (find _ (sfModules sf)) as [prismaModule|]; [|discriminate].
    destruct (transformPrismaModule _ _ _ _) as [pm| | |] eqn:Hpm; simpl in H;
      try discriminate.
    injection H as <-. simpl. repeat split.
    unfold transformPrismaModule in Hpm.
    destruct (mapM _ _); simpl in Hpm; try discriminate.
    injection Hpm as <-. rewrite filter_app. simpl. rewrite app_nil_r.
    rewrite filter_map_modules. now rewrite filter_filter.
Qed.

Lemma outside_namespace_is_copied_witness :
  exists out,
    processClientTypes 1 Examples.mediaModel Examples.mediaFile = Returns out
    /\ outImports out = ["import * as runtime from './runtime/library'"]
    /\ outTypeAliases out = [typeAliasStructure Examples.videoPayload]
    /\ outOthers out = [].
Proof.
  eexists. split; [vm_compute; reflexivity|].
  destruct (outside_namespace_is_copied 1 Examples.mediaModel Examples.mediaFile
              _ eq_refl) as [H1 [_ [_ [H4 [_ [_ [_ H8]]]]]]].
  split; [exact H1 | split; [exact H4 | exact H8]].
Defined.

Lemma mapM_names {A B : Type} (f : A -> outcome B) (na : A -> string)
    (nb : B -> string) (xs : list A) (ys : list B) :
  (forall x y, f x = Returns y -> nb y = na x) ->
  mapM f xs = Returns ys -> map nb ys = map na xs.
Proof.
  intros Hf. revert ys. induction xs as [|x xs IH]; intros ys H; simpl in H.
  - now injection H as <-.
  - destruct (f x) as [y| | |] eqn:Hy; simpl in H; try discriminate.
    destruct (mapM f xs) as [ys'| | |]; simpl in H; try discriminate.
    injection H as <-. simpl. f_equal; [now apply Hf | now apply IH].
Qed.

(** X17.  The rebuilt namespace is named [Prisma]; it has the import-equals,
    classes, functions and nested namespaces of the original, and the same
    type aliases and interfaces by name and order and as many variable
    statements: the pass neither drops, adds nor reorders a declaration of
    these categories. *)
Theorem namespace_keeps_its_declarations (fuel : nat) (m : Model)
    (prismaModule : ModuleDeclaration) (delegateInfo : DelegateInfo)
    (out : ModuleStructure) :
  transformPrismaModule fuel m prismaModule delegateInfo = Returns out ->
  msName out = "Prisma"
  /\ msImportEquals out = mbImportEquals (modBlock prismaModule)
  /\ msClasses out = mbClasses (modBlock prismaModule)
  /\ msFunctions out = mbFunctions (modBlock prismaModule)
  /\ msModules out = mbModules (modBlock prismaModule)
  /\ map tasName (msTypeAliases out) = map taName (mbTypeAliases (modBlock prismaModule))
  /\ map ifName (msInterfaces out) = map ifName (mbInterfaces (modBlock prismaModule))
  /\ List.length (msVariables out) = List.length (mbVariables (modBlock prismaModule)).
Proof.
  unfold transformPrismaModule. intros H.
  destruct (mapM _ _) as [aliases| | |] eqn:Hm; simpl in H; try discriminate.
  injection H as <-. simpl. repeat split.
  - apply (mapM_names _ taName tasName _ _) in Hm; [assumption|].
    intros x y Hxy.
    now apply (transformTypeAlias_name fuel m x delegateInfo y).
  - rewrite map_map. reflexivity.
  - apply length_map.
Qed.

Lemma namespace_keeps_its_declarations_witness :
  exists out,
    transformPrismaModule 1 Examples.lonelyModel Examples.lonelyNamespace
      (buildDelegateInfo Examples.lonelyModel) = Returns out
    /\ map tasName (msTypeAliases out) = ["$AssetPayload"]
    /\ map ifName (msInterfaces out) = ["AssetDelegate"].
Proof.
  eexists. split; [reflexivity|].
  destruct (namespace_keeps_its_declarations 1 Examples.lonelyModel
              Examples.lonelyNamespace (buildDelegateInfo Examples.lonelyModel)
              _ eq_refl)
    as [_ [_ [_ [_ [_ [Ha [Hi _]]]]]]].
  split; [exact Ha | exact Hi].
Defined.

(** *** Runs *)




Lemma generateLogicalPrisma_log (fuel : nat) (model : Model) (w : World) :
  let run := generateLogicalPrisma fuel model w in
  generatorRuns (fst run) = (if execPackage w 0 then [false] else [false; true])
  /\ savedReexports (fst run) = []
  /\ savedClientTypes (fst run)
     = match snd run, processClientTypes fuel model (clientTypes w) with
       | Returns _, Returns doc => [doc]
       | _, _ => []
       end
  /\ (execPackage w 0 = false -> forall u, snd run <> Returns u).
Proof.
  unfold generateLogicalPrisma.
  destruct (execPackage w 0).
  - destruct (processClientTypes fuel model (clientTypes w)); simpl;
      repeat split; discriminate.
  - simpl. repeat split. intros _ u. discriminate.
Qed.

(** X19.  Generating the logical client runs the external generator quietly
    once, and once more with its output shown exactly when the first run
    failed; it saves the transformed declarations only when it returns, and
    then exactly those the pass produced; it does not return after a failed
    first run. *)
Theorem logical_generation_trace (fuel : nat) (model : Model) (w : World) :
  let run := generateLogicalPrisma fuel model w in
  generatorRuns (fst run) = (if execPackage w 0 then [false] else [false; true])
  /\ savedClientTypes (fst run)
     = match snd run, processClientTypes fuel model (clientTypes w) with
       | Returns _, Returns doc => [doc]
       | _, _ => []
       end
  /\ (execPackage w 0 = false -> forall u, snd run <> Returns u).
Proof.
  destruct (generateLogicalPrisma_log fuel model w) as [H1 [_ [H2 H3]]].
  cbv zeta. auto.
Qed.

Lemma generate_reports_need
    (getDataModels : Model -> list (nat * DataModel))
    (isDefaultWithAuth : Attribute -> bool)
    (fuel : nat) (model : Model) (w : World) (prismaImport : string) :
  match snd (generate getDataModels isDefaultWithAuth fuel model w prismaImport) with
  | Returns logical =>
      logical = needsLogicalClient getDataModels isDefaultWithAuth model
  | _ => True
  end.
Proof.
  unfold generate.
  destruct (needsLogicalClient getDataModels isDefaultWithAuth model);
    [|reflexivity].
  now destruct (generateLogicalPrisma fuel model w) as [log [u|e| |]].
Qed.

(** X20.  A run reports a logical client exactly when the schema needs one.
    A run that returns has written one re-export, of the transformed
    declarations if it reports a logical client and of the original client
    otherwise; a run that does not return has written no re-export. *)
Theorem run_reexports_once
    (getDataModels : Model -> list (nat * DataModel))
    (isDefaultWithAuth : Attribute -> bool)
    (fuel : nat) (model : Model) (w : World) (prismaImport : string) :
  let run := generate getDataModels isDefaultWithAuth fuel model w prismaImport in
  match snd run with
  | Returns logical =>
      logical = needsLogicalClient getDataModels isDefaultWithAuth model
      /\ savedReexports (fst run)
         = [if logical then logicalPrismaClientDir ++ "/index-fixed" else prismaImport]
  | _ => savedReexports (fst run) = []
  end.
Proof.
  unfold generate.
  destruct (needsLogicalClient getDataModels isDefaultWithAuth model);
    [|simpl; auto].
  destruct (generateLogicalPrisma_log fuel model w) as [_ [Hre _]].
  cbv zeta in Hre.
  destruct (generateLogicalPrisma fuel model w) as [log [u|e| |]]; simpl in *;
    try exact Hre.
  split; [reflexivity|].
  unfold savedReexports in *. rewrite flat_map_app, Hre. reflexivity.
Qed.

(** *** Rewrites that find nothing to remove *)

Lemma concrete_pattern_without_names :
  exists r, compile "()(Unchecked)?(Create|Update).*Input" = Some r.
Proof. eexists. vm_compute. reflexivity. Qed.

Lemma flat_map_nil {A B : Type} (f : A -> list B) (l : list A) :
  (forall x, In x l -> f x = []) -> flat_map f l = [].
Proof.
  induction l as [|x l IH]; intros H; [reflexivity|].
  simpl. rewrite (H x (or_introl eq_refl)). apply IH.
  intros y Hy. apply H. now right.
Qed.

(** X21.  With an index in which no delegate has a sub model, the rewrite
    of concrete inputs returns the type text of every alias unchanged,
    whatever the alias is called. *)
Theorem concrete_rewrite_needs_sub_models (fuel : nat) (m : Model)
    (typeAlias : TypeAliasDeclaration) (delegateInfo : DelegateInfo)
    (source : string) :
  (forall e, In e delegateInfo -> snd e = []) ->
  removeDiscriminatorFromConcreteInput fuel m typeAlias delegateInfo source
  = Returns source.
Proof.
  intros Hnone. unfold removeDiscriminatorFromConcreteInput,
    concreteCreateUpdateInputPattern.
  rewrite (flat_map_nil (fun e => map name (snd e)))
    by (intros e He; now rewrite (Hnone e He)).
  cbn [join append].
  destruct concrete_pattern_without_names as [r ->].
  destruct (exec r (taName typeAlias)); [|reflexivity].
  rewrite find_none_all; [reflexivity|].
  intros e He. now rewrite (Hnone e He).
Qed.

Lemma concrete_rewrite_needs_sub_models_witness :
  removeDiscriminatorFromConcreteInput 0 Examples.lonelyModel
    Examples.videoCreateInput (buildDelegateInfo Examples.lonelyModel)
    (taType Examples.videoCreateInput)
  = Returns (taType Examples.videoCreateInput).
Proof.
  apply concrete_rewrite_needs_sub_models.
  intros e [<- | []]. reflexivity.
Defined.

Lemma findNamedProperty_none (typeAlias : TypeAliasDeclaration) (n : string) :
  (forall p, In p (taProps typeAlias) -> psName p <> n) ->
  findNamedProperty typeAlias n = None.
Proof.
  intros H. unfold findNamedProperty. apply find_none_all.
  intros p Hp. apply String.eqb_neq. now apply H.
Qed.

(** X22.  For an alias none of whose properties has the reserved prefix, is
    called [create], [connectOrCreate] or [upsert], or is called like the
    discriminator of a delegate-marked data model of the schema, the
    stripping of aux fields returns its source, and so do the rewrite of
    concrete inputs and the rewrite of delegate inputs whenever they
    return, whatever the name of the alias. *)
Theorem rewrites_without_targets (fuel : nat) (m : Model)
    (typeAlias : TypeAliasDeclaration) (source : string) :
  (forall p, In p (taProps typeAlias) ->
     startsWith DELEGATE_AUX_RELATION_PREFIX (psName p) = false
     /\ includes ["create"; "connectOrCreate"; "upsert"] (psName p) = false
     /\ ~ declaredDiscriminator m (psName p)) ->
  removeAuxFieldsFromTypeAlias typeAlias source = source
  /\ (forall out,
        removeDiscriminatorFromConcreteInput fuel m typeAlias (buildDelegateInfo m) source
        = Returns out -> out = source)
  /\ (forall out,
        removeCreateFromDelegateInput typeAlias (buildDelegateInfo m) source
        = Returns out -> out = source).
Proof.
  intros Habs. split; [|split].
  - apply removeAuxFieldsFromTypeAlias_absent. apply filter_nil.
    intros p Hp. now apply Habs.
  - intros out H. unfold removeDiscriminatorFromConcreteInput in H.
    destruct (compile _); [|discriminate].
    destruct (exec _ _); [|now injection H as <-].
    destruct (find _ (buildDelegateInfo m)) as [record|] eqn:Hfind;
      [|now injection H as <-].
    apply find_some in Hfind as [Hrec _].
    destruct (index_entry m record Hrec) as [i [Hi _]].
    destruct (getDiscriminatorFieldsRecursively _ _ _ _) as [ds| | |] eqn:Hwalk;
      simpl in H; try discriminate.
    injection H as <-. apply remove_named_absent.
    intros n Hn. apply findNamedProperty_none. intros p Hp Heq.
    assert (Hdecl : In (DataModelDecl (fst record)) (declarations m))
      by (unfold deref in Hi; now apply nth_error_In in Hi).
    destruct (walk_collects m fuel _ [] ds (fun _ _ => Hdecl) Hwalk n Hn)
      as [[] | HQ].
    destruct (Habs p Hp) as [_ [_ Hno]]. apply Hno. now rewrite Heq.
  - intros out H.
    apply (removeCreateFromDelegateInput_absent typeAlias (buildDelegateInfo m));
      [|assumption].
    intros p Hp. now apply Habs.
Qed.

Lemma assetPayload_has_no_target :
  forall p, In p (taProps Examples.assetPayload) ->
    startsWith DELEGATE_AUX_RELATION_PREFIX (psName p) = false
    /\ includes ["create"; "connectOrCreate"; "upsert"] (psName p) = false
    /\ ~ declaredDiscriminator Examples.mediaModel (psName p).
Proof.
  intros p [<- | [<- | []]]; repeat split;
    intros [dm [Hin [Hdel Hd]]];
    destruct Hin as [Heq | [Heq | [Heq | []]]]; injection Heq as <-;
    discriminate.
Qed.

Lemma rewrites_without_targets_witness :
  removeAuxFieldsFromTypeAlias Examples.assetPayload (taType Examples.assetPayload)
  = taType Examples.assetPayload.
Proof.
  exact (proj1 (rewrites_without_targets 1 Examples.mediaModel Examples.assetPayload
                  (taType Examples.assetPayload) assetPayload_has_no_target)).
Defined.

(** *** The plugin entry point *)

(** X23.  The entry point throws, before anything is written, when the
    output option is absent or falsy and there is no default output folder.
    A run that returns has no warnings and reports a logical client exactly
    when the schema needs one; it reports a client path exactly then, which
    is [.zenstack/models] unless the output option is a string. *)
Theorem plugin_run_reports_client_path
    (getDataModels : Model -> list (nat * DataModel))
    (isDefaultWithAuth : Attribute -> bool)
    (getDefaultOutputFolder : option string)
    (resolvePath : Plugin.OptionValue -> outcome string)
    (generateModelMeta generatePolicy : string -> outcome unit)
    (getPrismaClientImportSpec modelsPathFromSchema : string -> string)
    (fuel : nat) (model : Model) (output : option Plugin.OptionValue) (w : World) :
  let result :=
    Plugin.run getDataModels isDefaultWithAuth getDefaultOutputFolder resolvePath
      generateModelMeta generatePolicy getPrismaClientImportSpec modelsPathFromSchema
      fuel model output w in
  (Plugin.truthy output = false ->
   Plugin.truthy (option_map Plugin.StringValue getDefaultOutputFolder) = false ->
   result = ([], Throws "Unable to determine output path, not running plugin"))
  /\ (forall res, snd result = Returns res ->
        Plugin.warnings res = []
        /\ Plugin.dmmf res = needsLogicalClient getDataModels isDefaultWithAuth model
        /\ (Plugin.prismaClientPath res = None <-> Plugin.dmmf res = false)
        /\ (Plugin.dmmf res = true ->
            (forall o, output <> Some (Plugin.StringValue o)) ->
            Plugin.prismaClientPath res = Some ".zenstack/models")).
Proof.
  cbv zeta. unfold Plugin.run. split.
  - intros Hout Hdef. rewrite Hout.
    destruct getDefaultOutputFolder as [d|]; [|reflexivity].
    simpl in Hdef. simpl. now rewrite Hdef.
  - intros res H.
    destruct (if Plugin.truthy output then output else _) as [dir|] eqn:Hdir;
      [|discriminate].
    destruct (Plugin.truthy (Some dir)); [|discriminate].
    destruct (resolvePath dir) as [outDir| | |]; try discriminate.
    destruct (generateModelMeta outDir); try discriminate.
    destruct (generatePolicy outDir); try discriminate.
    pose proof (generate_reports_need getDataModels isDefaultWithAuth fuel model w
                  (getPrismaClientImportSpec outDir)) as Hgen.
    destruct (generate _ _ _ _ _ _) as [log [hasDmmf|e| |]]; try discriminate.
    simpl in H, Hgen. injection H as <-. simpl.
    split; [reflexivity|]. split; [exact Hgen|].
    split.
    + destruct hasDmmf; [|tauto].
      destruct output as [[o|t]|]; split; discriminate.
    + intros -> Hnot. destruct output as [[o|t]|]; try reflexivity.
      now destruct (Hnot o).
Qed.

(** *** The rewrite of nested mutation inputs *)

Lemma nested_pattern_compiles :
  exists r, compile nestedMutationInputPattern = Some r.
Proof. eexists. vm_compute. reflexivity. Qed.

Lemma refTexts_outcome (items : list Expression) :
  (exists ts, refTexts items = Returns ts)
  \/ (refTexts items = Throws "TypeError"
      /\ exists item, In item items /\ isReference item = false).
Proof.
  induction items as [|e items IH]; [left; now eexists|].
  destruct e as [t r | l | f | x];
    try (right; split; [reflexivity | eexists; split; [now left | reflexivity]]).
  simpl. destruct IH as [[ts ->] | [-> [item [Hin Hno]]]].
  - left. now eexists.
  - right. split; [reflexivity|]. exists item. split; [now right | assumption].
Qed.

(** X24.  The rewrite of nested mutation inputs either returns or throws a
    type error, and it throws only when some relation field of the schema
    lists a non-reference among the [fields] of its [@relation] attribute. *)
Theorem nested_rewrite_fails_only_on_malformed_relation (m : Model)
    (typeAlias : TypeAliasDeclaration) (delegateInfo : DelegateInfo)
    (source : string) :
  (exists out,
     removeDelegateFieldsFromNestedMutationInput m typeAlias delegateInfo source
     = Returns out)
  \/ (removeDelegateFieldsFromNestedMutationInput m typeAlias delegateInfo source
      = Throws "TypeError"
      /\ malformedRelation m).
Proof.
  unfold removeDelegateFieldsFromNestedMutationInput.
  destruct nested_pattern_compiles as [r ->].
  destruct (exec r (taName typeAlias)) as [caps|]; [|left; now eexists].
  destruct (find _ (declarations m)) as [[rm|n]|] eqn:Hrm;
    try (left; now eexists).
  destruct (find _ (fields rm)) as [relationField|] eqn:Hf; [|left; now eexists].
  destruct (getAttribute _ "@relation") as [relAttr|] eqn:Hattr;
    [|left; now eexists].
  destruct (getAttributeArg relAttr "fields") as [[t x | items | g | l]|] eqn:Harg;
    simpl; try (left; now eexists).
  destruct (refTexts_outcome items) as [[ts ->] | [-> [item [Hin Hno]]]]; simpl.
  - left. now eexists.
  - right. split; [reflexivity|].
    apply find_some in Hrm as [Hrm _]. apply find_some in Hf as [Hf _].
    exists rm, relationField, relAttr, items, item. auto 10.
Qed.

End Extra.

(** ** The amended claims *)

Module Amended.
Import Str Regex Schema Tree Enhancer Reading Conditions Facts Extra.

(** *** The discriminator-chain walk *)

Lemma bind_stuck {A B : Type} (x : outcome A) (f : A -> outcome B) :
  (forall a, x <> Returns a) -> forall b, bind x f <> Returns b.
Proof.
  intros H b. destruct x as [a| | |]; simpl; try discriminate.
  now destruct (H a).
Qed.

Lemma walkSupers_cons (fuel : nat) (m : Model) (s : option nat)
    (supers : list (option nat)) (cur : list string) :
  walkSupers fuel m (s :: supers) (Returns cur)
  = walkSupers fuel m supers
      match s with
      | Some i =>
          match deref m i with
          | Some base =>
              r <- getDiscriminatorFieldsRecursively fuel m base cur ;;
              Returns (r ++ r)%list
          | None => Returns cur
          end
      | None => Returns cur
      end.
Proof. reflexivity. Qed.

(** A loop over supertypes one of which starts a walk that does not return
    does not return. *)
Lemma walkSupers_stuck (fuel : nat) (m : Model) (supers : list (option nat)) :
  (exists j base,
     In (Some j) supers /\ deref m j = Some base
     /\ forall cur r, getDiscriminatorFieldsRecursively fuel m base cur <> Returns r) ->
  forall acc r, walkSupers fuel m supers acc <> Returns r.
Proof.
  induction supers as [|s supers IH]; intros [j [base [Hin [Hj Hstuck]]]] acc r;
    [contradiction|].
  destruct acc as [cur| | |];
    try (rewrite walkSupers_absorbs; [discriminate | intros; discriminate]).
  rewrite walkSupers_cons.
  destruct Hin as [-> | Hin].
  - rewrite Hj.
    destruct (getDiscriminatorFieldsRecursively fuel m base cur) as [r0| | |] eqn:Hr;
      simpl.
    + now destruct (Hstuck cur r0).
    + rewrite walkSupers_absorbs; [discriminate | intros; discriminate].
    + rewrite walkSupers_absorbs; [discriminate | intros; discriminate].
    + rewrite walkSupers_absorbs; [discriminate | intros; discriminate].
  - apply IH. now exists j, base.
Qed.

Lemma walk_on_cycle (m : Model) (on : nat -> Prop) :
  delegateCycle m on ->
  forall fuel i d result r,
    on i -> deref m i = Some d ->
    getDiscriminatorFieldsRecursively fuel m d result <> Returns r.
Proof.
  intros Hcycle. induction fuel as [|fuel IH]; intros i d result r Hon Hi;
    [discriminate|].
  destruct (Hcycle i Hon) as [dm [j [Hdm [Hdel [Hin Honj]]]]].
  rewrite Hi in Hdm. injection Hdm as ->.
  rewrite (walk_unfold m fuel dm result Hdel).
  destruct (Hcycle j Honj) as [dm' [j' [Hj _]]].
  apply walkSupers_stuck. exists j, (DataModelDecl dm').
  split; [assumption|]. split; [assumption|].
  intros cur r0. now apply (IH j).
Qed.

(** C7, amended.  The walk carries no visited-set.  It returns, from every
    declaration and with every contents of the result array, for every
    schema in which the supertype references of delegate-marked entities
    form no cycle (they descend along a rank); and it returns for no
    recursion depth when it is started from an entity on a cycle of
    delegate-marked entities, that is from a member of a set of
    delegate-marked entities each of which lists a member of the set as a
    supertype. *)
Theorem C7_walk_returns_unless_cycle (m : Model) :
  (forall rank,
     ranked m rank ->
     forall i d result,
       deref m i = Some d ->
       exists r,
         getDiscriminatorFieldsRecursively (S (rank i)) m d result = Returns r)
  /\ (forall on,
        delegateCycle m on ->
        forall i d,
          on i -> deref m i = Some d ->
          forall fuel result r,
            getDiscriminatorFieldsRecursively fuel m d result <> Returns r).
Proof.
  split.
  - intros rank Hrank i d result Hi.
    apply (walk_returns m rank Hrank (S (rank i)) i); [assumption | lia].
  - intros on Hcycle i d Hon Hi fuel result r.
    now apply (walk_on_cycle m on Hcycle fuel i).
Qed.

Lemma pingPong_cycle : delegateCycle Examples.pingPongModel (fun i => i < 2).
Proof.
  intros i Hi. destruct i as [|[|i]]; [| |lia].
  - exists Examples.Ping, 1. repeat split; [now left | lia].
  - exists Examples.Pong, 0. repeat split; [now left | lia].
Qed.

Lemma C7_walk_returns_unless_cycle_witness :
  (exists r,
     getDiscriminatorFieldsRecursively 2 Examples.twoLevelModel
       (DataModelDecl Examples.Mid) [] = Returns r)
  /\ (forall fuel result r,
        getDiscriminatorFieldsRecursively fuel Examples.pingPongModel
          (DataModelDecl Examples.Ping) result <> Returns r).
Proof.
  split.
  - exact (proj1 (C7_walk_returns_unless_cycle Examples.twoLevelModel)
             (fun i => i) twoLevel_ranked 1 (DataModelDecl Examples.Mid) [] eq_refl).
  - exact (proj2 (C7_walk_returns_unless_cycle Examples.pingPongModel)
             (fun i => i < 2) pingPong_cycle 0 (DataModelDecl Examples.Ping)
             (Nat.lt_0_succ 1) eq_refl).
Defined.

(** *** Which client a run needs *)

Lemma in_getDataModels (m : Model) (i : nat) (dm : DataModel) :
  In (i, dm) (Sdk.getDataModels m) <-> entity m i dm.
Proof.
  unfold Sdk.getDataModels, entity. rewrite in_flat_map. split.
  - intros [[j d] [Hjd Hin]]. apply in_indexed in Hjd. simpl in Hin.
    destruct d as [dm'|n]; [|contradiction].
    destruct (Sdk.hasAttribute dm' "@@ignore") eqn:Hig; [contradiction|].
    destruct Hin as [Heq | []]. injection Heq as <- <-. now split.
  - intros [Hi Hig]. exists (i, DataModelDecl dm). split; [now apply in_indexed|].
    simpl. rewrite Hig. now left.
Qed.

Lemma needsLogicalClient_entities (isDefaultWithAuth : Attribute -> bool)
    (model : Model) :
  needsLogicalClient Sdk.getDataModels isDefaultWithAuth model = true
  <-> delegateWithSub model \/ authDefaultField isDefaultWithAuth model.
Proof.
  unfold needsLogicalClient. rewrite orb_true_iff.
  rewrite hasDelegateModel_spec, hasAuthInDefault_spec.
  unfold someDelegateWithSub, someAuthDefault, delegateWithSub, authDefaultField.
  split.
  - intros [[[i dm] [Hdm [Hdel [[j sub] [Hsub Hext]]]]]
           | [[i dm] [Hdm [f [Hf [a [Ha Hauth]]]]]]].
    + left. exists i, dm, j, sub. simpl in *.
      apply in_getDataModels in Hdm. apply in_getDataModels in Hsub. auto.
    + right. exists i, dm, f, a. simpl in *.
      apply in_getDataModels in Hdm. auto.
  - intros [[i [dm [j [sub [Hdm [Hdel [Hsub Hext]]]]]]]
           | [i [dm [f [a [Hdm [Hf [Ha Hauth]]]]]]]].
    + left. exists (i, dm). apply in_getDataModels in Hdm.
      split; [assumption|]. split; [assumption|].
      exists (j, sub). apply in_getDataModels in Hsub. now split.
    + right. exists (i, dm). apply in_getDataModels in Hdm.
      split; [assumption|]. exists f. split; [assumption|]. now exists a.
Qed.

(** C6, as stated, fails in both directions.  A schema without any
    delegate-marked entity whose field default reads the current user takes
    the logical-client path, and the re-export points at the transformed
    declarations.  A schema in which a delegate-marked entity with a sub
    model is marked [@@ignore] takes the other path, and the re-export
    points at the original client. *)
Lemma C6_path_is_not_decided_by_hierarchies :
  ((forall d, In d (declarations Examples.authOnlyModel) -> isDelegateModel d = false)
   /\ needsLogicalClient Sdk.getDataModels Examples.defaultWithAuth
        Examples.authOnlyModel = true
   /\ exists doc,
        generate Sdk.getDataModels Examples.defaultWithAuth 1
          Examples.authOnlyModel (Examples.steadyWorld Examples.auxFile) "@prisma/client"
        = ([LogicalSchemaGenerated; PrismaGenerate false; ClientTypesSaved doc;
            ReexportSaved "./.logical-prisma-client/index-fixed";
            EnhanceCreated true], Returns true))
  /\ (isDelegateModel (DataModelDecl Examples.IgnoredMedia) = true
      /\ deref Examples.ignoredModel 0 = Some (DataModelDecl Examples.IgnoredMedia)
      /\ deref Examples.ignoredModel 1 = Some (DataModelDecl Examples.Video)
      /\ extends Examples.Video 0 = true
      /\ generate Sdk.getDataModels Examples.defaultWithAuth 1
           Examples.ignoredModel (Examples.steadyWorld Examples.auxFile) "@prisma/client"
         = ([ReexportSaved "@prisma/client"; EnhanceCreated false], Returns false)).
Proof.
  split.
  - split; [|split].
    + intros d [<- | [<- | []]]; reflexivity.
    + reflexivity.
    + eexists. reflexivity.
  - repeat split.
Qed.

(** C6, amended.  The logical-client path is taken if and only if some
    entity of the schema (a data model not marked [@@ignore]) is
    delegate-marked and some entity lists it as a supertype, or some field
    of an entity has a default that reads the current user.  A run that
    takes the path and returns has written one re-export, of the
    transformed declarations; a run that takes it and does not return has
    written no re-export; a run that does not take it re-exports the
    original client. *)
Theorem C6_logical_path_iff (isDefaultWithAuth : Attribute -> bool) (model : Model) :
  (needsLogicalClient Sdk.getDataModels isDefaultWithAuth model = true
   <-> delegateWithSub model \/ authDefaultField isDefaultWithAuth model)
  /\ (forall fuel w prismaImport,
        let run := generate Sdk.getDataModels isDefaultWithAuth fuel model w
                     prismaImport in
        if needsLogicalClient Sdk.getDataModels isDefaultWithAuth model
        then match snd run with
             | Returns logical =>
                 logical = true
                 /\ savedReexports (fst run)
                    = [logicalPrismaClientDir ++ "/index-fixed"]
             | _ => savedReexports (fst run) = []
             end
        else run = ([ReexportSaved prismaImport; EnhanceCreated false],
                    Returns false)).
Proof.
  split; [apply needsLogicalClient_entities|].
  intros fuel w prismaImport. cbv zeta. unfold generate.
  destruct (needsLogicalClient Sdk.getDataModels isDefaultWithAuth model);
    [|reflexivity].
  destruct (generateLogicalPrisma_log fuel model w) as [_ [Hre _]].
  cbv zeta in Hre.
  destruct (generateLogicalPrisma fuel model w) as [log [u|e| |]]; simpl in *;
    try exact Hre.
  split; [reflexivity|].
  unfold savedReexports in *. rewrite flat_map_app, Hre. reflexivity.
Qed.

(** *** Aux-field stripping *)

Lemma startsWith_stripPrefix (p s : string) :
  startsWith p s = false -> stripPrefix p s = None.
Proof.
  revert s. induction p as [|a p IH]; intros [|b s] H; simpl in *;
    try discriminate; try reflexivity.
  destruct (Ascii.eqb a b); [now apply IH | reflexivity].
Qed.

Lemma replaceFirst_absent (p s : string) :
  occursIn p s = false -> replaceFirst p s = s.
Proof.
  induction s as [|c s IH]; intros H; rewrite replaceFirst_eq.
  - simpl in H. apply orb_false_iff in H as [H _].
    now rewrite (startsWith_stripPrefix _ _ H).
  - cbn [occursIn] in H. apply orb_false_iff in H as [Hhere Hlater].
    rewrite (startsWith_stripPrefix _ _ Hhere). f_equal. now apply IH.
Qed.

Lemma removeAll_absent (nodes : list PropertySignature) (s : string) :
  forallb (fun q => negb (occursIn (psText q) s)) nodes = true ->
  removeAll (map psText nodes) s = s.
Proof.
  induction nodes as [|q nodes IH]; intros H; [reflexivity|].
  simpl in H. apply andb_true_iff in H as [Hq Hrest].
  apply negb_true_iff in Hq.
  cbn [map removeAll fold_left]. rewrite (replaceFirst_absent _ _ Hq).
  now apply IH.
Qed.

Lemma removeAll_app (a b : list string) (s : string) :
  removeAll (a ++ b)%list s = removeAll b (removeAll a s).
Proof. unfold removeAll. apply fold_left_app. Qed.

(** Cutting the texts of the signatures of the reserved prefix out, in
    document order, leaves the kept pieces when no text collides. *)
Lemma removeAll_pieces (ps : list Pieces.piece) :
  forall done,
    Pieces.inPlace done ps = true ->
    removeAll (map psText (Pieces.auxNodes ps)) (done ++ Pieces.text ps)
    = done ++ Pieces.kept ps.
Proof.
  induction ps as [|[t|p inner] ps IH]; intros done H; simpl in H.
  - reflexivity.
  - simpl. rewrite <- !append_assoc. now apply IH.
  - apply andb_true_iff in H as [H Hrest]. apply andb_true_iff in H as [Hp Hinner].
    apply negb_true_iff in Hp.
    cbn [Pieces.auxNodes Pieces.text Pieces.pieceText Pieces.kept].
    rewrite map_app, removeAll_app.
    cbn [map removeAll fold_left]. rewrite (replaceFirst_at _ _ _ Hp).
    fold (removeAll (map psText inner) (done ++ Pieces.text ps)).
    rewrite (removeAll_absent _ _ Hinner). now apply IH.
Qed.

(** The same with signatures of the reserved prefix before and after the
    expression (in another declaration of the statement, in the type
    parameters of the alias) whose texts do not occur in it. *)
Lemma removeAll_around (before after : list PropertySignature)
    (ps : list Pieces.piece) :
  forallb (fun q => negb (occursIn (psText q) (Pieces.text ps))) before = true ->
  Pieces.inPlace EmptyString ps = true ->
  forallb (fun q => negb (occursIn (psText q) (Pieces.kept ps))) after = true ->
  removeAll (map psText (before ++ Pieces.auxNodes ps ++ after)%list) (Pieces.text ps)
  = Pieces.kept ps.
Proof.
  intros Hbefore Hfree Hafter.
  rewrite !map_app, !removeAll_app.
  rewrite (removeAll_absent _ _ Hbefore).
  pose proof (removeAll_pieces ps EmptyString Hfree) as Hcut. cbn [append] in Hcut.
  rewrite Hcut. now apply removeAll_absent.
Qed.

Lemma removeAux_pieces (typeAlias : TypeAliasDeclaration)
    (before after : list PropertySignature) (ps : list Pieces.piece) :
  taType typeAlias = Pieces.text ps ->
  findAuxDecls (taProps typeAlias) = (before ++ Pieces.auxNodes ps ++ after)%list ->
  forallb (fun q => negb (occursIn (psText q) (Pieces.text ps))) before = true ->
  Pieces.inPlace EmptyString ps = true ->
  forallb (fun q => negb (occursIn (psText q) (Pieces.kept ps))) after = true ->
  removeAuxFieldsFromTypeAlias typeAlias (taType typeAlias) = Pieces.kept ps.
Proof.
  intros Htext Haux Hbefore Hfree Hafter.
  rewrite removeAuxFieldsFromTypeAlias_removeAll, Haux, Htext.
  now apply removeAll_around.
Qed.

Lemma transformTypeAlias_pipeline (fuel : nat) (m : Model)
    (typeAlias : TypeAliasDeclaration) (delegateInfo : DelegateInfo) :
  transformTypeAlias fuel m typeAlias delegateInfo
  = (t <- rewritesAfterAux fuel m typeAlias delegateInfo
            (removeAuxFieldsFromTypeAlias typeAlias (taType typeAlias)) ;;
     Returns {| tasName := taName typeAlias; tasType := t |}).
Proof.
  unfold transformTypeAlias, rewritesAfterAux.
  destruct (removeDiscriminatorFromConcreteInput _ _ _ _ _); simpl; try reflexivity.
  destruct (removeCreateFromDelegateInput _ _ _); simpl; try reflexivity.
  now destruct (removeDelegateFieldsFromNestedMutationInput _ _ _ _).
Qed.

Lemma mapM_in {A B : Type} (f : A -> outcome B) (xs : list A) (ys : list B) (x : A) :
  mapM f xs = Returns ys -> In x xs -> exists y, In y ys /\ f x = Returns y.
Proof.
  revert ys. induction xs as [|x0 xs IH]; intros ys H Hx; [contradiction|].
  simpl in H. destruct (f x0) as [y0| | |] eqn:Hy0; simpl in H; try discriminate.
  destruct (mapM f xs) as [ys'| | |]; simpl in H; try discriminate.
  injection H as <-. destruct Hx as [-> | Hx].
  - exists y0. split; [now left | assumption].
  - destruct (IH ys' eq_refl Hx) as [y [Hy Hfy]]. exists y. split; [now right | assumption].
Qed.

(** When the pass runs and returns, the written file has exactly one
    namespace named [Prisma], the transformation of the first such namespace
    of the input. *)
Lemma rebuilt_namespace (fuel : nat) (m : Model) (sf : SourceFile)
    (out : SourceFileStructure) :
  buildDelegateInfo m <> [] ->
  processClientTypes fuel m sf = Returns out ->
  exists prismaModule newPrismaModule,
    find (fun n => String.eqb (modName n) "Prisma") (sfModules sf) = Some prismaModule
    /\ transformPrismaModule fuel m prismaModule (buildDelegateInfo m)
       = Returns newPrismaModule
    /\ In newPrismaModule (outModules out)
    /\ forall pm, In pm (outModules out) -> msName pm = "Prisma" -> pm = newPrismaModule.
Proof.
  intros Hne H. unfold processClientTypes in H.
  destruct (buildDelegateInfo m) as [|e info] eqn:Hinfo; [congruence|].
  simpl in H. unfold transformDelegate in H.
  destruct (find _ (sfModules sf)) as [prismaModule|]; [|discriminate].
  destruct (transformPrismaModule _ _ _ _) as [newPrismaModule| | |] eqn:Hpm;
    simpl in H; try discriminate.
  injection H as <-. exists prismaModule, newPrismaModule. simpl.
  split; [reflexivity|]. split; [exact Hpm|]. split.
  - apply in_or_app. right. now left.
  - intros pm Hin Hname. apply in_app_or in Hin as [Hin | [<- | []]]; [|reflexivity].
    apply in_map_iff in Hin as [md [<- Hmd]].
    apply filter_In in Hmd as [_ Hmd]. simpl in Hname.
    rewrite Hname in Hmd. discriminate.
Qed.

(** C4, as stated, fails, in three ways.  Without a delegate-marked entity
    the declarations are copied as they stand, and a member of the reserved
    prefix survives in the namespace.  When the pass runs, a type alias
    outside the namespace is written with its property of the reserved
    prefix.  And inside the namespace the property [delegate_aux_media] of
    [VideoInclude] survives, because the first occurrence of its text lies
    inside the property before it. *)
Lemma C4_aux_members_survive :
  (buildDelegateInfo Examples.authOnlyModel = []
   /\ needsLogicalClient Examples.allDataModels Examples.defaultWithAuth
        Examples.authOnlyModel = true
   /\ exists out,
        processClientTypes 1 Examples.authOnlyModel Examples.auxFile = Returns out
        /\ exists pm iface x,
             In pm (outModules out) /\ msName pm = "Prisma"
             /\ In iface (msInterfaces pm) /\ In x (ifMethods iface)
             /\ startsWith DELEGATE_AUX_RELATION_PREFIX (memberName x) = true)
  /\ (exists out,
        processClientTypes 1 Examples.mediaModel Examples.mediaFile = Returns out
        /\ outTypeAliases out = [typeAliasStructure Examples.videoPayload]
        /\ findAuxDecls (taProps Examples.videoPayload)
           = [Examples.prop "delegate_aux_media" ": $MediaPayload<ExtArgs> | null"]
        /\ exists pm,
             In pm (outModules out) /\ msName pm = "Prisma"
             /\ In {| tasName := "VideoInclude";
                      tasType := Examples.literal
                                   ["my_"; "delegate_aux_media?: boolean"] |}
                   (msTypeAliases pm)).
Proof.
  split.
  - split; [reflexivity | split; [reflexivity|]].
    eexists. split; [reflexivity|].
    do 3 eexists. simpl.
    split; [left; reflexivity|]. split; [reflexivity|].
    split; [left; reflexivity|]. split; [right; left; reflexivity | reflexivity].
  - eexists. split; [vm_compute; reflexivity|].
    split; [reflexivity|]. split; [reflexivity|].
    eexists. split; [left; reflexivity|]. split; [reflexivity|].
    right. left. reflexivity.
Qed.

(** C4, amended.  When the pass runs (the index has an entry) and returns,
    the written file has a namespace [Prisma], the transformation of the
    namespace of that name of the input, and in it: no interface has a
    property or method whose name starts with the reserved prefix; every
    type alias of the input namespace whose property signatures of the
    reserved prefix stand in place is written with the type that the
    remaining rewrites of an alias make of its type expression without those
    property signatures; and every variable annotation of the input
    namespace whose property signatures of the reserved prefix stand in
    place is written without them.  The signatures stand in place when the
    text of none occurs earlier in what is kept of the expression before it,
    nor, for one that lies inside another or outside the expression (in the
    type parameters of the alias, in another declaration of the statement),
    anywhere in the expression at the time it is looked for. *)
Theorem C4_aux_stripped_in_namespace (fuel : nat) (m : Model) (sf : SourceFile)
    (out : SourceFileStructure) :
  buildDelegateInfo m <> [] ->
  processClientTypes fuel m sf = Returns out ->
  exists prismaModule pm,
    find (fun n => String.eqb (modName n) "Prisma") (sfModules sf) = Some prismaModule
    /\ In pm (outModules out)
    /\ (forall pm', In pm' (outModules out) -> msName pm' = "Prisma" -> pm' = pm)
    /\ (forall iface x,
          In iface (msInterfaces pm) ->
          In x (ifProperties iface ++ ifMethods iface)%list ->
          startsWith DELEGATE_AUX_RELATION_PREFIX (memberName x) = false)
    /\ (forall typeAlias before ps after,
          In typeAlias (mbTypeAliases (modBlock prismaModule)) ->
          taType typeAlias = Pieces.text ps ->
          findAuxDecls (taProps typeAlias)
          = (before ++ Pieces.auxNodes ps ++ after)%list ->
          forallb (fun q => negb (occursIn (psText q) (Pieces.text ps))) before = true ->
          Pieces.inPlace EmptyString ps = true ->
          forallb (fun q => negb (occursIn (psText q) (Pieces.kept ps))) after = true ->
          exists t,
            rewritesAfterAux fuel m typeAlias (buildDelegateInfo m) (Pieces.kept ps)
            = Returns t
            /\ In {| tasName := taName typeAlias; tasType := t |} (msTypeAliases pm))
    /\ (forall variable d before ps after,
          In variable (mbVariables (modBlock prismaModule)) ->
          In d (vsDeclarations variable) ->
          vdType d = Some (Pieces.text ps) ->
          findAuxDecls (vsProps variable)
          = (before ++ Pieces.auxNodes ps ++ after)%list ->
          forallb (fun q => negb (occursIn (psText q) (Pieces.text ps))) before = true ->
          Pieces.inPlace EmptyString ps = true ->
          forallb (fun q => negb (occursIn (psText q) (Pieces.kept ps))) after = true ->
          exists written,
            In written (msVariables pm)
            /\ In {| vdName := vdName d; vdType := Some (Pieces.kept ps) |}
                  (vssDeclarations written)).
Proof.
  intros Hne Hout.
  destruct (rebuilt_namespace fuel m sf out Hne Hout)
    as [prismaModule [pm [Hfind [Hpm [Hin Honly]]]]].
  exists prismaModule, pm.
  split; [assumption|]. split; [assumption|]. split; [assumption|].
  unfold transformPrismaModule in Hpm.
  destruct (mapM _ _) as [aliases| | |] eqn:Haliases; simpl in Hpm; try discriminate.
  injection Hpm as <-. simpl. split; [|split].
  - intros iface x Hiface Hx. apply in_map_iff in Hiface as [iface0 [<- _]].
    now apply transformInterface_no_aux in Hx.
  - intros typeAlias before ps after Hta Htext Haux Hbefore Hfree Hafter.
    destruct (mapM_in _ _ _ typeAlias Haliases Hta) as [y [Hy Hfy]].
    rewrite transformTypeAlias_pipeline in Hfy.
    rewrite (removeAux_pieces typeAlias before after ps Htext Haux Hbefore Hfree Hafter)
      in Hfy.
    destruct (rewritesAfterAux _ _ _ _ _) as [t| | |]; simpl in Hfy; try discriminate.
    injection Hfy as <-. now exists t.
  - intros variable d before ps after Hv Hd Htype Haux Hbefore Hfree Hafter.
    exists (transformVariableStatement variable). split; [now apply in_map|].
    pose proof (removeAll_around before after ps Hbefore Hfree Hafter) as Hcut.
    unfold transformVariableStatement. rewrite Haux.
    destruct (0 <? List.length (before ++ Pieces.auxNodes ps ++ after)) eqn:Hlen;
      simpl.
    + apply in_map_iff. exists d. split; [|assumption].
      rewrite Htype. now rewrite Hcut.
    + destruct (before ++ Pieces.auxNodes ps ++ after)%list; [|discriminate].
      cbn [map removeAll fold_left] in Hcut. rewrite <- Hcut, <- Htype.
      now destruct d.
Qed.

Lemma C4_aux_stripped_in_namespace_witness :
  exists out prismaModule pm t written,
    processClientTypes 1 Examples.mediaModel Examples.mediaFile = Returns out
    /\ find (fun n => String.eqb (modName n) "Prisma") (sfModules Examples.mediaFile)
       = Some prismaModule
    /\ In pm (outModules out)
    /\ In {| tasName := "$VideoPayload"; tasType := t |} (msTypeAliases pm)
    /\ rewritesAfterAux 1 Examples.mediaModel Examples.videoPayload
         (buildDelegateInfo Examples.mediaModel)
         (Pieces.kept Examples.videoPayloadPieces) = Returns t
    /\ In written (msVariables pm)
    /\ In {| vdName := "VideoRelationEnum";
             vdType := Some (Pieces.kept Examples.relationEnumPieces) |}
          (vssDeclarations written).
Proof.
  destruct (C4_aux_stripped_in_namespace 1 Examples.mediaModel Examples.mediaFile
              _ mediaModel_index_nonempty eq_refl)
    as [prismaModule [pm [Hfind [Hpm [_ [_ [Halias Hvar]]]]]]].
  assert (Hmod : prismaModule = Examples.mediaNamespace)
    by (simpl in Hfind; now injection Hfind as <-).
  subst prismaModule.
  destruct (Halias Examples.videoPayload [] Examples.videoPayloadPieces []
              (or_introl eq_refl) eq_refl eq_refl eq_refl eq_refl eq_refl)
    as [t [Ht Hin]].
  destruct (Hvar Examples.relationEnum _ [] Examples.relationEnumPieces []
              (or_introl eq_refl) (or_introl eq_refl) eq_refl eq_refl eq_refl
              eq_refl eq_refl)
    as [written [Hw Hd]].
  eexists. exists Examples.mediaNamespace, pm, t, written.
  split; [reflexivity|]. split; [exact Hfind|]. split; [exact Hpm|].
  split; [exact Hin|]. split; [exact Ht|]. split; [exact Hw | exact Hd].
Defined.

End Amended.
